(** * OpenSearchWorkflow: the CDK stack of [open_search_workflow.py]

    The stack's constructor is embedded as a computation in a small
    state-and-error monad over the construct tree it builds: every
    construct the constructor instantiates is recorded with its class, its
    id and the keyword arguments the source passes, and the workflow states
    live in a shared store that [next], [iterator] and [add_retry] mutate,
    as the CDK objects are mutated in the source.

    Values that the framework only resolves at deployment (bucket name,
    region, account, ARNs, queue URL) are kept as token expressions and
    given their meaning by [resolve] under a deployment environment. *)

From Stdlib Require Import String Ascii List ZArith Bool Lia.
From stdpp Require Import base strings gmap list.

Local Open Scope string_scope.
Local Open Scope list_scope.
Local Open Scope Z_scope.

Set Warnings "-register-all".

(** ** Strings *)

Module Str.

(** [sep.join(parts)] *)
Fixpoint join (sep : string) (parts : list string) : string :=
  match parts with
  | [] => ""
  | [p] => p
  | p :: rest => p +:+ sep +:+ join sep rest
  end.

(** Split at every occurrence of the character [d]; [cur] is the piece
    being read, kept in reading order. *)
Fixpoint split_from (d : ascii) (cur : string) (s : string) : list string :=
  match s with
  | EmptyString => [cur]
  | String c s' =>
      if Ascii.eqb c d then cur :: split_from d "" s'
      else split_from d (cur +:+ String c "") s'
  end.

Definition split (d : ascii) (s : string) : list string := split_from d "" s.

(** [s[:n]] *)
Fixpoint take (n : nat) (s : string) : string :=
  match n, s with
  | O, _ => ""
  | S _, EmptyString => ""
  | S n', String c s' => String c (take n' s')
  end.

Fixpoint map (f : ascii -> ascii) (s : string) : string :=
  match s with
  | EmptyString => ""
  | String c s' => String (f c) (map f s')
  end.

Fixpoint forallb (p : ascii -> bool) (s : string) : bool :=
  match s with
  | EmptyString => true
  | String c s' => p c && forallb p s'
  end.

Definition in_range (lo hi c : ascii) : bool :=
  (nat_of_ascii lo <=? nat_of_ascii c)%nat && (nat_of_ascii c <=? nat_of_ascii hi)%nat.

Definition is_upper (c : ascii) : bool := in_range "A" "Z" c.
Definition is_lower (c : ascii) : bool := in_range "a" "z" c.
Definition is_digit (c : ascii) : bool := in_range "0" "9" c.

(** [str.lower] on the ASCII letters; the only call site applies it to a
    string already reduced to ASCII letters, digits and hyphens. *)
Definition lower_char (c : ascii) : ascii :=
  if is_upper c then ascii_of_nat (nat_of_ascii c + 32) else c.

Definition lower (s : string) : string := map lower_char s.

Definition starts_with (p s : string) : bool := String.prefix p s.

Fixpoint rev_onto (acc s : string) : string :=
  match s with
  | EmptyString => acc
  | String c s' => rev_onto (String c acc) s'
  end.

Definition ends_with (suf s : string) : bool :=
  String.prefix (rev_onto "" suf) (rev_onto "" s).

(** [needle in hay] *)
Fixpoint contains (needle hay : string) : bool :=
  String.prefix needle hay ||
  match hay with
  | EmptyString => false
  | String _ hay' => contains needle hay'
  end.

Fixpoint ends_with_char (d : ascii) (s : string) : bool :=
  match s with
  | EmptyString => false
  | String c EmptyString => Ascii.eqb c d
  | String _ s' => ends_with_char d s'
  end.

End Str.

(** ** Regular expressions: the bracket expression of [re.sub] *)

Module Re.

(** A bracket expression [[...]] or [[^...]]: ranges, a single character
    being the range from itself to itself. *)
Record Bracket := { negated : bool; ranges : list (ascii * ascii) }.

Definition matches (b : Bracket) (c : ascii) : bool :=
  xorb (negated b) (existsb (fun r => Str.in_range (fst r) (snd r) c) (ranges b)).

(** [re.sub(pattern, repl, s)] for a pattern that is one bracket
    expression: every character it matches is replaced by [repl]. *)
Fixpoint sub (pattern : Bracket) (repl : string) (s : string) : string :=
  match s with
  | EmptyString => ""
  | String c s' =>
      (if matches pattern c then repl else String c "") +:+ sub pattern repl s'
  end.

End Re.

(** ** Deployment-time strings (tokens) *)

(** A string of the stack as the constructor computes it: literal text,
    attributes of constructs and of the stack that stay unresolved until
    deployment, f-string concatenation, and the [Fn.join]/[Fn.split]
    intrinsics applied to them. *)
Inductive SExpr :=
| Lit (s : string)
| Attr (construct attr : string)
| StackOf (attr : string)
| AwsPseudo (name : string)
| Cat (a b : SExpr)
| FnJoin (delimiter : string) (parts : LExpr)
with LExpr :=
| FnSplit (delimiter : ascii) (source : SExpr).

Infix "⊕" := Cat (at level 60, right associativity).

(** What the tokens stand for once the stack is deployed. *)
Record Env := {
  attr_value : string -> string -> string;
  stack_value : string -> string;
  pseudo_value : string -> string
}.

Fixpoint resolve (env : Env) (e : SExpr) : string :=
  match e with
  | Lit s => s
  | Attr c a => attr_value env c a
  | StackOf a => stack_value env a
  | AwsPseudo n => pseudo_value env n
  | Cat a b => resolve env a +:+ resolve env b
  | FnJoin d l => Str.join d (resolve_list env l)
  end
with resolve_list (env : Env) (l : LExpr) : list string :=
  match l with
  | FnSplit d s => Str.split d (resolve env s)
  end.

(** ** Values passed to constructs *)

(** [RemovalPolicy], the members that apply to a bucket. *)
Inductive RemovalPolicy := DESTROY | RETAIN.

(** [s3.EventType] members a notification can subscribe to. *)
Inductive EventType :=
| OBJECT_CREATED
| OBJECT_CREATED_PUT
| OBJECT_CREATED_POST
| OBJECT_CREATED_COPY
| OBJECT_CREATED_COMPLETE_MULTIPART_UPLOAD
| OBJECT_REMOVED
| OBJECT_REMOVED_DELETE
| OBJECT_REMOVED_DELETE_MARKER_CREATED.

(** [s3.NotificationKeyFilter(prefix=..., suffix=...)] *)
Record NotificationKeyFilter := { key_prefix : option string; key_suffix : option string }.

(** [eventsources.S3EventSource(bucket, events=..., filters=...)]; the
    bucket is named by its construct id. *)
Record S3EventSource := {
  source_bucket : string;
  events : list EventType;
  filters : list NotificationKeyFilter
}.

(** A sequence of workflow states under construction ([sfn.Chain], and any
    [IChainable]): where it starts and the states a successor attaches to. *)
Record Chain := { start_state : string; end_states : list string }.

Inductive Value :=
| VStr (e : SExpr)
| VInt (n : Z)
| VBool (b : bool)
| VConst (name : string)
| VRemovalPolicy (p : RemovalPolicy)
| VRef (construct : string)
| VChain (c : Chain)
| VJsonPath (expr : string)
| VEventSource (src : S3EventSource)
| VList (l : list Value)
| VDict (items : list (string * Value))
| VCall (fn : string) (args : list Value) (kwargs : list (string * Value)).

Definition Kwargs := list (string * Value).

Fixpoint kwarg (name : string) (kw : Kwargs) : option Value :=
  match kw with
  | [] => None
  | (k, v) :: rest => if String.eqb k name then Some v else kwarg name rest
  end.

(** ** The construct tree and the workflow-state store *)

Inductive Class :=
| s3_Bucket
| tcdk_TextractPOCDecider
| tcdk_DocumentSplitter
| tcdk_TextractGenericAsyncSfnTask
| tcdk_TextractAsyncToJSON
| tcdk_TextractGenerateCSV
| lambda_DockerImageFunction
| tasks_LambdaInvoke
| LambdaToOpenSearch
| sfn_Map
| sfn_StateMachine
| tcdk_SFExecutionsStartThrottle
| CfnOutput.

Definition Class_eqb (a b : Class) : bool :=
  match a, b with
  | s3_Bucket, s3_Bucket
  | tcdk_TextractPOCDecider, tcdk_TextractPOCDecider
  | tcdk_DocumentSplitter, tcdk_DocumentSplitter
  | tcdk_TextractGenericAsyncSfnTask, tcdk_TextractGenericAsyncSfnTask
  | tcdk_TextractAsyncToJSON, tcdk_TextractAsyncToJSON
  | tcdk_TextractGenerateCSV, tcdk_TextractGenerateCSV
  | lambda_DockerImageFunction, lambda_DockerImageFunction
  | tasks_LambdaInvoke, tasks_LambdaInvoke
  | LambdaToOpenSearch, LambdaToOpenSearch
  | sfn_Map, sfn_Map
  | sfn_StateMachine, sfn_StateMachine
  | tcdk_SFExecutionsStartThrottle, tcdk_SFExecutionsStartThrottle
  | CfnOutput, CfnOutput => true
  | _, _ => false
  end.

(** The classes whose instances are workflow states (chainable). *)
Definition is_state (c : Class) : bool :=
  match c with
  | tcdk_TextractPOCDecider | tcdk_DocumentSplitter
  | tcdk_TextractGenericAsyncSfnTask | tcdk_TextractAsyncToJSON
  | tcdk_TextractGenerateCSV | tasks_LambdaInvoke | sfn_Map => true
  | _ => false
  end.

Record Construct := { cls : Class; cid : string; props : Kwargs }.

(** A retry policy of a state: the error names it retries on and the
    ceiling on attempts, and the interval in seconds and the backoff rate
    when they are given. *)
Record RetryProps := {
  max_attempts : Z;
  errors : list string;
  interval : option Z;
  backoff_rate : option Z
}.

Record CatchProps := { catch_errors : list string; handler : string }.

(** The mutable part of a workflow state object. *)
Record StateNode := {
  next : option string;
  iteration : option string;
  retries : list RetryProps;
  catches : list CatchProps
}.

Definition fresh_node : StateNode :=
  {| next := None; iteration := None; retries := []; catches := [] |}.

(** The retry policy [tasks.LambdaInvoke] puts on its state by itself,
    before any [add_retry] of the caller, unless it is created with
    [retry_on_service_exceptions=False]: six attempts, two seconds apart
    at first and doubling, on the service errors of Lambda. *)
Definition LambdaInvoke_default_retry : RetryProps :=
  {| max_attempts := 6;
     errors := ["Lambda.ClientExecutionTimeoutException"; "Lambda.ServiceException";
                "Lambda.AWSLambdaException"; "Lambda.SdkClientException"];
     interval := Some 2;
     backoff_rate := Some 2 |}.

Record App := {
  constructs : list Construct;
  states : gmap string StateNode;
  role_policies : list (string * Value)
}.

Definition empty_app : App :=
  {| constructs := []; states := ∅; role_policies := [] |}.

(** ** The constructor's monad: state passing with exceptions *)

Inductive result (A : Type) :=
| Ok (a : A)
| Raise (msg : string).
Arguments Ok {A} a.
Arguments Raise {A} msg.

Definition M (A : Type) : Type := App -> result (A * App).

Definition ret {A} (a : A) : M A := fun s => Ok (a, s).

Definition bind {A B} (m : M A) (k : A -> M B) : M B :=
  fun s => match m s with
           | Ok (a, s') => k a s'
           | Raise msg => Raise msg
           end.

Definition raise {A} (msg : string) : M A := fun _ => Raise msg.

Notation "x <- m ;; k" := (bind m (fun x => k))
  (at level 100, m at next level, right associativity).
Notation "m ;;; k" := (bind m (fun _ => k))
  (at level 100, right associativity).

Definition exec {A} (m : M A) (s : App) : result App :=
  match m s with
  | Ok (_, s') => Ok s'
  | Raise msg => Raise msg
  end.

Definition has_construct (id : string) (a : App) : bool :=
  existsb (fun c => String.eqb (cid c) id) (constructs a).

(** The node a state starts with. A Lambda-invoke state starts with the
    default retry policy of its class, since [retry_on_service_exceptions]
    is on unless the caller passes [False]; the other states start
    without a policy. *)
Definition initial_node (c : Class) (kw : Kwargs) : StateNode :=
  match c with
  | tasks_LambdaInvoke =>
      match kwarg "retry_on_service_exceptions" kw with
      | Some (VBool false) => fresh_node
      | _ => {| next := None; iteration := None;
                retries := [LambdaInvoke_default_retry]; catches := [] |}
      end
  | _ => fresh_node
  end.

(** [Class(self, id, **kwargs)]: a new child of the stack; a second child
    with the same id is refused. A state class also gets its node. The
    constructs of the document-processing library that stand for a step of
    the workflow are taken as one state each: the states such a construct
    holds inside, and their policies, are not in the store. *)
Definition new (c : Class) (id : string) (kw : Kwargs) : M string :=
  fun a =>
    if has_construct id a then
      Raise ("There is already a Construct with name '" +:+ id +:+ "'")
    else
      Ok (id,
          {| constructs := constructs a ++ [ {| cls := c; cid := id; props := kw |} ];
             states := if is_state c then <[id := initial_node c kw]> (states a)
                       else states a;
             role_policies := role_policies a |}).

Definition update_state (id : string) (f : StateNode -> result StateNode) : M unit :=
  fun a =>
    match states a !! id with
    | None => Raise ("'" +:+ id +:+ "' is not a workflow state")
    | Some n =>
        match f n with
        | Ok n' =>
            Ok (tt, {| constructs := constructs a;
                       states := <[id := n']> (states a);
                       role_policies := role_policies a |})
        | Raise msg => Raise msg
        end
    end.

(** A state seen as an [IChainable]: it starts and ends at itself. *)
Definition chainable (id : string) : Chain :=
  {| start_state := id; end_states := [id] |}.

Coercion chainable : string >-> Chain.

(** [State.next(next)]: the state gets [next]'s start as its successor,
    unless it has one already; the result is the chain from the state to
    the end of [next]. *)
Definition State_next (self : string) (nxt : Chain) : M Chain :=
  update_state self (fun n =>
    match next n with
    | Some _ => Raise ("State '" +:+ self +:+ "' already has a next state")
    | None => Ok {| next := Some (start_state nxt); iteration := iteration n;
                    retries := retries n; catches := catches n |}
    end) ;;;
  ret {| start_state := self; end_states := end_states nxt |}.

Fixpoint each_end_next (ends : list string) (nxt : Chain) : M unit :=
  match ends with
  | [] => ret tt
  | e :: rest => (_ <- State_next e nxt ;; each_end_next rest nxt)
  end.

(** [sfn.Chain.start(state)] *)
Definition Chain_start (c : Chain) : Chain :=
  {| start_state := start_state c; end_states := end_states c |}.

(** [Chain.next(next)]: every end state of the chain continues with
    [next]. *)
Definition Chain_next (self : Chain) (nxt : Chain) : M Chain :=
  match end_states self with
  | [] => raise "Cannot add to chain: last state in chain does not allow it"
  | ends =>
      each_end_next ends nxt ;;;
      ret {| start_state := start_state self; end_states := end_states nxt |}
  end.

(** [Map.iterator(chain)] *)
Definition Map_iterator (self : string) (it : Chain) : M unit :=
  update_state self (fun n =>
    match iteration n with
    | Some _ => Raise "Map already has an iterator"
    | None => Ok {| next := next n; iteration := Some (start_state it);
                    retries := retries n; catches := catches n |}
    end).

(** [state.add_retry(max_attempts=..., errors=[...])] *)
Definition add_retry (self : string) (r : RetryProps) : M unit :=
  update_state self (fun n =>
    Ok {| next := next n; iteration := iteration n;
          retries := retries n ++ [r]; catches := catches n |}).

(** [function.add_to_role_policy(statement)] *)
Definition add_to_role_policy (self : string) (statement : Value) : M unit :=
  fun a =>
    Ok (tt, {| constructs := constructs a; states := states a;
               role_policies := role_policies a ++ [(self, statement)] |}).

(** [os.path.join(a, b)] for two components *)
Definition os_path_join (a b : string) : string :=
  if Str.starts_with "/" b then b
  else if String.eqb a "" || Str.ends_with_char "/" a then a +:+ b
  else a +:+ "/" +:+ b.

(** ** The stack *)

(** What the constructor reads from its surroundings while it runs: the
    stack's name, the directory of the source file, and whether the
    throttle construct it instantiates exposes a document queue. *)
Record SynthCtx := {
  stack_name : string;
  script_location : string;
  document_queue : bool
}.

Module OpenSearchWorkflow.

Definition description : string :=
  "IDP CDK constructs sample for ingesting large number of documents to OpenSearch (SO9217)".

Definition s3_upload_prefix : string := "uploads".
Definition s3_output_prefix : string := "textract-output".
Definition s3_opensearch_output_prefix : string := "textract-opensearch-output".
Definition s3_temp_output_prefix : string := "textract-temp".

Definition workflow_name : string := "OpenSearchWorkflow".

Definition current_region : SExpr := StackOf "region".
Definition account_id : SExpr := StackOf "account".

(** The pattern ["[^a-zA-Z0-9-]"]. *)
Definition cognito_pattern : Re.Bracket :=
  {| Re.negated := true;
     Re.ranges := [("a", "z"); ("A", "Z"); ("0", "9"); ("-", "-")]%char |}.

(** [re.sub("[^a-zA-Z0-9-]", "", f"{stack_name}").lower()[:30]] *)
Definition cognito_stack_name (stack_name : string) : string :=
  Str.take 30 (Str.lower (Re.sub cognito_pattern "" stack_name)).

(** The task input shared by the two wait-for-task-token steps. *)
Definition token_input : Value :=
  VCall "sfn.TaskInput.from_object"
    [VDict [("Token", VJsonPath "$$.Task.Token");
            ("ExecutionId", VJsonPath "$$.Execution.Id");
            ("Payload", VJsonPath "$")]] [].

(** The argument of [sfn.JsonPath.string_at] for [manifest.s3Path], with
    the blanks the source's line continuations leave in it. *)
Definition s3Path_expr : string :=
  "States.Format('s3://{}/{}/{}',                   $.documentSplitterS3OutputBucket,                   $.documentSplitterS3OutputPath,                   $$.Map.Item.Value)".

Definition __init__ (ctx : SynthCtx) : M unit :=
  (* Create the bucket for the documents and outputs *)
  document_bucket <- new s3_Bucket "OpenSearchWorkflowBucket"
    [("auto_delete_objects", VBool true);
     ("removal_policy", VRemovalPolicy DESTROY)] ;;
  let s3_output_bucket := Attr document_bucket "bucket_name" in
  let s3_event_source :=
    {| source_bucket := document_bucket;
       events := [OBJECT_CREATED];
       filters := [ {| key_prefix := Some s3_upload_prefix; key_suffix := None |} ] |} in

  decider_task <- new tcdk_TextractPOCDecider (workflow_name +:+ "-Decider")
    [("textract_decider_max_retries", VInt 10000)] ;;

  document_splitter_task <- new tcdk_DocumentSplitter "DocumentSplitter"
    [("s3_output_bucket", VStr s3_output_bucket);
     ("s3_output_prefix", VStr (Lit s3_output_prefix));
     ("max_number_of_pages_per_doc", VInt 2500);
     ("lambda_log_level", VStr (Lit "INFO"));
     ("textract_document_splitter_max_retries", VInt 10000)] ;;

  textract_async_task <- new tcdk_TextractGenericAsyncSfnTask "TextractAsync"
    [("s3_output_bucket", VStr s3_output_bucket);
     ("s3_temp_output_prefix", VStr (Lit s3_temp_output_prefix));
     ("textract_async_call_max_retries", VInt 50000);
     ("integration_pattern", VConst "sfn.IntegrationPattern.WAIT_FOR_TASK_TOKEN");
     ("lambda_log_level", VStr (Lit "INFO"));
     ("timeout", VCall "Duration.hours" [VInt 24] []);
     ("input", token_input);
     ("result_path", VStr (Lit "$.textract_result"))] ;;

  textract_async_to_json <- new tcdk_TextractAsyncToJSON "TextractAsyncToJSON2"
    [("lambda_log_level", VStr (Lit "INFO"));
     ("s3_output_prefix", VStr (Lit s3_output_prefix));
     ("s3_output_bucket", VStr s3_output_bucket)] ;;

  generate_open_search_batch <- new tcdk_TextractGenerateCSV "GenerateOpenSearchBatch"
    [("csv_s3_output_bucket", VStr (Attr document_bucket "bucket_name"));
     ("csv_s3_output_prefix", VStr (Lit s3_opensearch_output_prefix));
     ("lambda_log_level", VStr (Lit "INFO"));
     ("lambda_memory_mb", VInt 10240);
     ("output_type", VStr (Lit "OPENSEARCH_BATCH"));
     ("opensearch_index_name", VStr (Lit "papers-index"));
     ("integration_pattern", VConst "sfn.IntegrationPattern.WAIT_FOR_TASK_TOKEN");
     ("input", token_input);
     ("result_path", VStr (Lit "$.opensearch_output_location"))] ;;

  (* Pushing the OpenSearch bulk import file into OpenSearch *)
  lambda_opensearch_push <- new lambda_DockerImageFunction "LambdaOpenSearchPush"
    [("code", VCall "lambda_.DockerImageCode.from_image_asset"
                [VStr (Lit (os_path_join (script_location ctx) "../lambda/opensearch_push/"))] []);
     ("memory_size", VInt 10240);
     ("timeout", VCall "Duration.seconds" [VInt 900] []);
     ("architecture", VConst "lambda_.Architecture.X86_64");
     ("environment", VDict [("LOG_LEVEL", VStr (Lit "INFO"))])] ;;

  add_to_role_policy lambda_opensearch_push
    (VCall "iam.PolicyStatement" []
       [("actions", VList [VStr (Lit "s3:Get*"); VStr (Lit "s3:List*")]);
        ("resources", VList [VStr (Attr document_bucket "bucket_arn");
                             VStr (Attr document_bucket "bucket_arn" ⊕ Lit "/*")])]) ;;;

  task_lambda_opensearch_push <- new tasks_LambdaInvoke "OpenSearchPushInvoke"
    [("lambda_function", VRef lambda_opensearch_push);
     ("timeout", VCall "Duration.seconds" [VInt 900] []);
     ("payload_response_only", VBool true);
     ("result_path", VStr (Lit "$.OpenSearchPush"))] ;;

  add_retry task_lambda_opensearch_push
    {| max_attempts := 100000;
       errors := ["Lambda.TooManyRequestsException"; "OpenSearchConnectionTimeout"];
       interval := None; backoff_rate := None |} ;;;

  (* Creating the OpenSearch instances and connect with the OpenSearch push Lambda *)
  let cognito_stack_name := cognito_stack_name (stack_name ctx) in
  lambda_to_opensearch <- new LambdaToOpenSearch "OpenSearchResources"
    [("existing_lambda_obj", VRef lambda_opensearch_push);
     ("open_search_domain_name", VStr (Lit "idp-cdk-opensearch"));
     ("cognito_domain_name",
        VStr (Lit cognito_stack_name ⊕ Lit "-" ⊕ account_id ⊕ Lit "-" ⊕ current_region));
     ("open_search_domain_props",
        VCall "opensearch.CfnDomainProps" []
          [("ebs_options", VCall "opensearch.CfnDomain.EBSOptionsProperty" []
                             [("volume_size", VInt 200); ("volume_type", VStr (Lit "gp2"))]);
           ("cluster_config", VCall "opensearch.CfnDomain.ClusterConfigProperty" []
                                [("instance_type", VStr (Lit "m6g.large.search"))]);
           ("engine_version", VStr (Lit "OpenSearch_2.7"))])] ;;

  (* The mapping function is just to generate an empty output from the Map state *)
  lambda_opensearch_mapping <- new lambda_DockerImageFunction "LambdaOpenSearchMapping"
    [("code", VCall "lambda_.DockerImageCode.from_image_asset"
                [VStr (Lit (os_path_join (script_location ctx) "../lambda/map_opensearch_lambda/"))] []);
     ("memory_size", VInt 128);
     ("architecture", VConst "lambda_.Architecture.X86_64");
     ("environment", VDict [])] ;;

  task_opensearch_mapping <- new tasks_LambdaInvoke "TaskOpenSearchMapping"
    [("lambda_function", VRef lambda_opensearch_mapping);
     ("output_path", VStr (Lit "$.Payload"))] ;;

  add_retry task_opensearch_mapping
    {| max_attempts := 100000; errors := ["Lambda.TooManyRequestsException"];
       interval := None; backoff_rate := None |} ;;;

  (* Setting meta-data for the SearchIndex *)
  set_meta_data_function <- new lambda_DockerImageFunction "SetMetaDataFunction"
    [("code", VCall "lambda_.DockerImageCode.from_image_asset"
                [VStr (Lit (os_path_join (script_location ctx)
                                         "../lambda/set-manifest-meta-data-opensearch"))] []);
     ("memory_size", VInt 128);
     ("architecture", VConst "lambda_.Architecture.X86_64");
     ("environment", VDict [("LOG_LEVEL", VStr (Lit "ERROR"))])] ;;

  set_meta_data_task <- new tasks_LambdaInvoke "SetMetaData"
    [("lambda_function", VRef set_meta_data_function);
     ("output_path", VStr (Lit "$.Payload"))] ;;

  add_retry set_meta_data_task
    {| max_attempts := 10000; errors := ["Lambda.TooManyRequestsException"];
       interval := None; backoff_rate := None |} ;;;

  (* Creating the StepFunction workflow *)
  async_chain <- Chain_next (Chain_start textract_async_task) textract_async_to_json ;;

  c1 <- State_next textract_async_to_json set_meta_data_task ;;
  Chain_next c1 generate_open_search_batch ;;;

  c2 <- State_next generate_open_search_batch task_lambda_opensearch_push ;;
  Chain_next c2 task_opensearch_mapping ;;;

  map <- new sfn_Map "Map State"
    [("items_path", VJsonPath "$.pages");
     ("parameters",
        VDict [("manifest", VDict [("s3Path", VJsonPath s3Path_expr)]);
               ("mime", VJsonPath "$.mime");
               ("originFileURI", VJsonPath "$.originFileURI")])] ;;

  Map_iterator map async_chain ;;;

  c3 <- Chain_next (Chain_start decider_task) document_splitter_task ;;
  workflow_chain <- Chain_next c3 map ;;

  state_machine <- new sfn_StateMachine workflow_name
    [("definition", VChain workflow_chain)] ;;

  sf_executions_start_throttle <- new tcdk_SFExecutionsStartThrottle "ExecutionThrottle"
    [("state_machine_arn", VStr (Attr state_machine "state_machine_arn"));
     ("executions_concurrency_threshold", VInt 550);
     ("sqs_batch", VInt 10);
     ("lambda_log_level", VStr (Lit "ERROR"));
     ("event_source", VList [VEventSource s3_event_source])] ;;

  let queue_url_urlencoded :=
    if document_queue ctx then
      (* urlencode the SQS Queue link *)
      FnJoin "%2F"
        (FnSplit "/"
           (FnJoin "%3A"
              (FnSplit ":" (Attr sf_executions_start_throttle "document_queue.queue_url"))))
    else Lit "" in

  (* OUTPUT *)
  new CfnOutput "DocumentUploadLocation"
    [("value", VStr (Lit "s3://" ⊕ Attr document_bucket "bucket_name" ⊕ Lit "/"
                     ⊕ Lit s3_upload_prefix ⊕ Lit "/"));
     ("export_name", VStr (AwsPseudo "AWS::StackName" ⊕ Lit "-DocumentUploadLocation"))] ;;;
  new CfnOutput "StepFunctionFlowLink"
    [("value", VStr (Lit "https://" ⊕ current_region
                     ⊕ Lit ".console.aws.amazon.com/states/home?region=" ⊕ current_region
                     ⊕ Lit "#/statemachines/view/"
                     ⊕ Attr state_machine "state_machine_arn"))] ;;;
  new CfnOutput "DocumentQueueLink"
    [("value", VStr (Lit "https://" ⊕ current_region
                     ⊕ Lit ".console.aws.amazon.com/sqs/v2/home?region=" ⊕ current_region
                     ⊕ Lit "#/queues/" ⊕ queue_url_urlencoded))] ;;;
  new CfnOutput "OpenSearchDashboard"
    [("value", VStr (Lit "https://"
                     ⊕ Attr lambda_to_opensearch "open_search_domain.attr_domain_endpoint"
                     ⊕ Lit "/_dashboards"))] ;;;
  new CfnOutput "OpenSearchLink"
    [("value", VStr (Lit "https://" ⊕ current_region
                     ⊕ Lit ".console.aws.amazon.com/aos/home?region=" ⊕ current_region
                     ⊕ Lit "#/opensearch/domains/"
                     ⊕ Attr lambda_to_opensearch "open_search_domain.domain_name"))] ;;;
  (* Link to UserPool *)
  new CfnOutput "CognitoUserPoolLink"
    [("value", VStr (Lit "https://" ⊕ current_region
                     ⊕ Lit ".console.aws.amazon.com/cognito/v2/idp/user-pools/"
                     ⊕ Attr lambda_to_opensearch "user_pool.user_pool_id"
                     ⊕ Lit "/users?region=" ⊕ current_region))] ;;;
  ret tt.

(** The construct tree the constructor leaves behind, or its exception. *)
Definition synth (ctx : SynthCtx) : result App := exec (__init__ ctx) empty_app.

End OpenSearchWorkflow.

(** ** Reading the construct tree *)

Definition find_construct (id : string) (a : App) : option Construct :=
  List.find (fun c => String.eqb (cid c) id) (constructs a).

Definition prop_of (a : App) (id name : string) : option Value :=
  c ← find_construct id a; kwarg name (props c).

Definition ids_of_class (k : Class) (a : App) : list string :=
  cid <$> List.filter (fun c => Class_eqb (cls c) k) (constructs a).

(** The successor relation of the workflow states, as the finite map from
    a state to the state [next] attached to it. *)
Definition transitions (a : App) : gmap string string := omap next (states a).

(** The Map states with the start state of their iterator. *)
Definition iterators (a : App) : gmap string string := omap iteration (states a).

(** The states visited from [s] by following successors, at most [fuel]
    of them. *)
Fixpoint walk (fuel : nat) (t : gmap string string) (s : string) : list string :=
  match fuel with
  | O => []
  | S fuel' => s :: match t !! s with
                    | Some s' => walk fuel' t s'
                    | None => []
                    end
  end.

(** A walk cannot visit more states than the store holds without
    repeating one, so the store's size bounds it. *)
Definition path_from (a : App) (s : string) : list string :=
  walk (size (states a)) (transitions a) s.

(** [sfn.StateMachine(..., definition=chain)]: the chain it was given. *)
Definition definition_of (a : App) (id : string) : option Chain :=
  match prop_of a id "definition" with
  | Some (VChain c) => Some c
  | _ => None
  end.

#[global] Instance Chain_eq_dec : EqDecision Chain.
Proof. solve_decision. Defined.
#[global] Instance RetryProps_eq_dec : EqDecision RetryProps.
Proof. solve_decision. Defined.
#[global] Instance CatchProps_eq_dec : EqDecision CatchProps.
Proof. solve_decision. Defined.
#[global] Instance Class_eq_dec : EqDecision Class.
Proof. solve_decision. Defined.
#[global] Instance RemovalPolicy_eq_dec : EqDecision RemovalPolicy.
Proof. solve_decision. Defined.

Definition is_ok {A} (r : result A) : bool :=
  match r with Ok _ => true | Raise _ => false end.



(** Every argument name that occurs inside a value, at any depth. *)
Fixpoint value_names (v : Value) : list string :=
  match v with
  | VList l => flat_map value_names l
  | VDict items => flat_map (fun kv => let '(k, x) := kv in k :: value_names x) items
  | VCall _ args kw =>
      flat_map value_names args
      ++ flat_map (fun kv => let '(k, x) := kv in k :: value_names x) kw
  | _ => []
  end.

(** Every argument the source passes to a construct, as (construct id,
    argument name, value); the arguments of nested calls are listed under
    the construct they are passed to, with the nested value. *)
Definition kwargs_names (kw : Kwargs) : list string :=
  flat_map (fun kv => let '(k, x) := kv in k :: value_names x) kw.

Definition all_params (a : App) : list (string * string) :=
  flat_map (fun c => (fun n => (cid c, n)) <$> kwargs_names (props c)) (constructs a)
  ++ flat_map (fun p => (fun n => (fst p, n)) <$> value_names (snd p)) (role_policies a).

(** An argument that sets a degree of concurrency, a batch size or a
    throttle, told by its name. *)
Definition is_concurrency_param (name : string) : bool :=
  Str.contains "concurren" name || Str.contains "batch" name
  || Str.contains "parallel" name || Str.contains "throttl" name.

Definition concurrency_params (a : App) : list (string * string) :=
  List.filter (fun p => is_concurrency_param (snd p)) (all_params a).


(** Whether a token string, or a value, refers to the construct [id]. *)
Fixpoint sexpr_mentions (id : string) (e : SExpr) : bool :=
  match e with
  | Attr c _ => String.eqb c id
  | Cat a b => sexpr_mentions id a || sexpr_mentions id b
  | FnJoin _ (FnSplit _ s) => sexpr_mentions id s
  | _ => false
  end.

Fixpoint value_mentions (id : string) (v : Value) : bool :=
  match v with
  | VStr e => sexpr_mentions id e
  | VRef c => String.eqb c id
  | VChain c => String.eqb (start_state c) id || existsb (String.eqb id) (end_states c)
  | VEventSource src => String.eqb (source_bucket src) id
  | VList l => existsb (value_mentions id) l
  | VDict items => existsb (fun kv => let '(_, x) := kv in value_mentions id x) items
  | VCall _ args kw =>
      existsb (value_mentions id) args
      || existsb (fun kv => let '(_, x) := kv in value_mentions id x) kw
  | _ => false
  end.

(** The constructs of class other than [CfnOutput] that are handed the
    construct [id] or one of its attributes. *)
Definition users_of (id : string) (a : App) : list string :=
  cid <$> List.filter
            (fun c => negb (Class_eqb (cls c) CfnOutput)
                      && existsb (fun kv => value_mentions id (snd kv)) (props c))
            (constructs a).

(** Every event source that occurs in a value. *)
Fixpoint value_event_sources (v : Value) : list S3EventSource :=
  match v with
  | VEventSource src => [src]
  | VList l => flat_map value_event_sources l
  | VDict items => flat_map (fun kv => let '(_, x) := kv in value_event_sources x) items
  | VCall _ args kw =>
      flat_map value_event_sources args
      ++ flat_map (fun kv => let '(_, x) := kv in value_event_sources x) kw
  | _ => []
  end.

(** The event sources this file hands to a construct, with the construct. *)
Definition event_sources (a : App) : list (string * S3EventSource) :=
  flat_map (fun c => (fun s => (cid c, s))
                       <$> flat_map (fun kv => value_event_sources (snd kv)) (props c))
           (constructs a).

(** The stack outputs, in the order they are declared. *)
Definition outputs (a : App) : list string := ids_of_class CfnOutput a.

(** The value of an output once the stack is deployed. *)
Definition output_value (env : Env) (a : App) (id : string) : option string :=
  match find_construct id a with
  | Some c =>
      if Class_eqb (cls c) CfnOutput then
        match kwarg "value" (props c) with
        | Some (VStr e) => Some (resolve env e)
        | _ => None
        end
      else None
  | None => None
  end.

(** ** Object storage: notifications and stack deletion *)

Module S3.

(** What happens to an object. *)
Inductive Action :=
| Put | Post | Copy | CompleteMultipartUpload
| Delete | DeleteMarkerCreated.

Record Event := { ev_bucket : string; ev_action : Action; ev_key : string }.

Definition is_object_created (a : Action) : bool :=
  match a with
  | Put | Post | Copy | CompleteMultipartUpload => true
  | Delete | DeleteMarkerCreated => false
  end.

(** Which actions a subscription to an event type covers: the plain
    [OBJECT_CREATED] and [OBJECT_REMOVED] are the wildcards of their
    families. *)
Definition covers (t : EventType) (a : Action) : bool :=
  match t, a with
  | OBJECT_CREATED, (Put | Post | Copy | CompleteMultipartUpload)
  | OBJECT_CREATED_PUT, Put
  | OBJECT_CREATED_POST, Post
  | OBJECT_CREATED_COPY, Copy
  | OBJECT_CREATED_COMPLETE_MULTIPART_UPLOAD, CompleteMultipartUpload
  | OBJECT_REMOVED, (Delete | DeleteMarkerCreated)
  | OBJECT_REMOVED_DELETE, Delete
  | OBJECT_REMOVED_DELETE_MARKER_CREATED, DeleteMarkerCreated => true
  | _, _ => false
  end.

Definition accepts (f : NotificationKeyFilter) (key : string) : bool :=
  match key_prefix f with Some p => Str.starts_with p key | None => true end
  && match key_suffix f with Some s => Str.ends_with s key | None => true end.

(** Whether the event source passes the event on: the event is the
    source bucket's, one of the subscribed types covers its action, and
    its key gets through every filter. *)
Definition fires (src : S3EventSource) (ev : Event) : bool :=
  String.eqb (source_bucket src) (ev_bucket ev)
  && existsb (fun t => covers t (ev_action ev)) (events src)
  && forallb (fun f => accepts f (ev_key ev)) (filters src).

(** A bucket when its stack is deleted, given the keys it holds. *)
Inductive Fate :=
| Deleted
| Retained (objects : list string)
| DeleteFailed (objects : list string).

(** [RETAIN] leaves the bucket and its objects in the account. [DESTROY]
    deletes the bucket, which the storage service only allows for an empty
    one: [auto_delete_objects] empties it first. *)
Definition on_stack_delete (auto_delete_objects : bool) (removal_policy : RemovalPolicy)
    (objects : list string) : Fate :=
  match removal_policy with
  | RETAIN => Retained objects
  | DESTROY =>
      if auto_delete_objects then Deleted
      else match objects with
           | [] => Deleted
           | _ => DeleteFailed objects
           end
  end.

End S3.

(** The fate of the bucket [id] of the stack under stack deletion, read
    off the arguments it was created with; without them a bucket is
    retained and not emptied. *)
Definition bucket_fate (a : App) (id : string) (objects : list string) : option S3.Fate :=
  match find_construct id a with
  | Some c =>
      if Class_eqb (cls c) s3_Bucket then
        let auto := match kwarg "auto_delete_objects" (props c) with
                    | Some (VBool b) => b
                    | _ => false
                    end in
        let policy := match kwarg "removal_policy" (props c) with
                      | Some (VRemovalPolicy p) => p
                      | _ => RETAIN
                      end in
        Some (S3.on_stack_delete auto policy objects)
      else None
  | None => None
  end.

(** The arguments that name a bucket or a prefix in it, told by their
    names, with the construct they are passed to. *)
Definition storage_params (a : App) : list (string * string * Value) :=
  flat_map (fun c =>
              (fun kv => (cid c, fst kv, snd kv))
                <$> List.filter (fun kv => Str.contains "bucket" (fst kv)
                                           || Str.contains "prefix" (fst kv))
                                (props c))
           (constructs a).

(** ** The workflow service: how a Map state builds its iteration inputs

    The part of the Amazon States Language the Map state of this stack
    relies on: reference paths into the state input ([$]) and the context
    object ([$$]), the [States.Format] intrinsic, and the evaluation of
    [parameters] once per item of [items_path]. *)

Module ASL.

Inductive JSON :=
| JNull
| JBool (b : bool)
| JNum (n : Z)
| JStr (s : string)
| JArr (items : list JSON)
| JObj (fields : list (string * JSON)).

Fixpoint assoc (k : string) (fields : list (string * JSON)) : option JSON :=
  match fields with
  | [] => None
  | (k', v) :: rest => if String.eqb k' k then Some v else assoc k rest
  end.

Definition field (k : string) (j : JSON) : option JSON :=
  match j with
  | JObj fields => assoc k fields
  | _ => None
  end.

Inductive Root := Input | Context.

(** [$.a.b] and [$$.a.b]: a root and the fields to descend through. *)
Record Path := { root : Root; steps : list string }.

Definition parse_steps (r : Root) (rest : string) : option Path :=
  match Str.split "." rest with
  | "" :: names =>
      if forallb (fun n => negb (String.eqb n "")) names
      then Some {| root := r; steps := names |}
      else None
  | _ => None
  end.

Definition parse_path (s : string) : option Path :=
  match s with
  | String "$" (String "$" rest) => parse_steps Context rest
  | String "$" rest => parse_steps Input rest
  | _ => None
  end.

Fixpoint descend (names : list string) (j : JSON) : option JSON :=
  match names with
  | [] => Some j
  | n :: rest => match field n j with
                 | Some j' => descend rest j'
                 | None => None
                 end
  end.

Definition eval_path (input context : JSON) (p : Path) : option JSON :=
  descend (steps p) match root p with Input => input | Context => context end.

(** *** Intrinsic functions *)

(** The arguments of an intrinsic call, cut at the commas that stand
    outside quotes; inside quotes a backslash protects the next
    character. [quoted] and [escaped] say where the reading stands. *)
Fixpoint cut_args (quoted escaped : bool) (cur : string) (s : string) : list string :=
  match s with
  | EmptyString => [cur]
  | String c s' =>
      if escaped then cut_args quoted false (cur +:+ String c "") s'
      else if quoted then
        cut_args (negb (Ascii.eqb c "'")) (Ascii.eqb c "\") (cur +:+ String c "") s'
      else if Ascii.eqb c "," then cur :: cut_args false false "" s'
      else cut_args (Ascii.eqb c "'") false (cur +:+ String c "") s'
  end.

Fixpoint drop_blanks (s : string) : string :=
  match s with
  | String " " s' => drop_blanks s'
  | _ => s
  end.

Definition trim (s : string) : string :=
  Str.rev_onto "" (drop_blanks (Str.rev_onto "" (drop_blanks s))).

Definition strip_prefix (p s : string) : option string :=
  if String.prefix p s
  then Some (String.substring (String.length p) (String.length s - String.length p) s)
  else None.

Definition strip_last (c : ascii) (s : string) : option string :=
  match Str.rev_onto "" s with
  | String c' r => if Ascii.eqb c' c then Some (Str.rev_onto "" r) else None
  | EmptyString => None
  end.

Inductive Arg :=
| Quoted (raw : string)
| Ref (p : Path).

Definition parse_arg (s : string) : option Arg :=
  match s with
  | String "'" rest => Quoted <$> strip_last "'" rest
  | _ => Ref <$> parse_path s
  end.

(** A template: characters that stand for themselves and [{}] holes. An
    escaped character stands for itself. *)
Inductive Piece := Text (c : ascii) | Hole.

Fixpoint pieces (raw : string) : list Piece :=
  match raw with
  | EmptyString => []
  | String "\" (String c rest) => Text c :: pieces rest
  | String "{" (String "}" rest) => Hole :: pieces rest
  | String c rest => Text c :: pieces rest
  end.

Fixpoint fill (ps : list Piece) (args : list string) : option string :=
  match ps with
  | [] => match args with [] => Some "" | _ => None end
  | Text c :: ps' => String c <$> fill ps' args
  | Hole :: ps' =>
      match args with
      | [] => None
      | a :: args' => String.append a <$> fill ps' args'
      end
  end.

(** [States.Format(template, arg, ...)] *)
Record FormatCall := { template : list Piece; arguments : list Path }.

Fixpoint all_refs (args : list Arg) : option (list Path) :=
  match args with
  | [] => Some []
  | Ref p :: rest => cons p <$> all_refs rest
  | Quoted _ :: _ => None
  end.

Definition parse_format (e : string) : option FormatCall :=
  body ← strip_prefix "States.Format(" e;
  inner ← strip_last ")" body;
  args ← mapM (fun a => parse_arg (trim a)) (cut_args false false "" inner);
  match args with
  | Quoted raw :: rest =>
      refs ← all_refs rest;
      Some {| template := pieces raw; arguments := refs |}
  | _ => None
  end.

(** The text an argument contributes to the formatted string; only
    string arguments are covered. *)
Definition as_text (j : JSON) : option string :=
  match j with
  | JStr s => Some s
  | _ => None
  end.

Definition eval_format (input context : JSON) (f : FormatCall) : option JSON :=
  texts ← mapM (fun p => eval_path input context p ≫= as_text) (arguments f);
  JStr <$> fill (template f) texts.

(** What [sfn.JsonPath.string_at] holds: an intrinsic call or a path. *)
Definition eval_expr (input context : JSON) (e : string) : option JSON :=
  if Str.starts_with "States." e
  then parse_format e ≫= eval_format input context
  else parse_path e ≫= eval_path input context.

(** *** Parameters *)

(** The payload a [parameters] dictionary stands for: JSON-path values
    are evaluated, dictionaries and lists are rebuilt around them,
    literals stand for themselves. *)
Fixpoint eval_params (input context : JSON) (v : Value) : option JSON :=
  match v with
  | VJsonPath e => eval_expr input context e
  | VStr (Lit s) => Some (JStr s)
  | VInt n => Some (JNum n)
  | VBool b => Some (JBool b)
  | VList l => JArr <$> mapM (eval_params input context) l
  | VDict items =>
      JObj <$> mapM (fun kv => let '(k, x) := kv in
                               pair k <$> eval_params input context x) items
  | _ => None
  end.

(** The context object of one iteration. *)
Definition item_context (index : nat) (value : JSON) : JSON :=
  JObj [("Map", JObj [("Item", JObj [("Index", JNum (Z.of_nat index));
                                     ("Value", value)])])].

Fixpoint iteration_inputs (parameters : option Value) (input : JSON)
    (index : nat) (items : list JSON) : option (list JSON) :=
  match items with
  | [] => Some []
  | v :: rest =>
      first ← match parameters with
              | Some ps => eval_params input (item_context index v) ps
              | None => Some v
              end;
      cons first <$> iteration_inputs parameters input (S index) rest
  end.

(** The inputs a Map state hands to its iterator, one per item of the
    array at [items_path], in order. *)
Definition map_inputs (items_path : string) (parameters : option Value)
    (input context : JSON) : option (list JSON) :=
  match eval_expr input context items_path with
  | Some (JArr items) => iteration_inputs parameters input 0 items
  | _ => None
  end.

End ASL.

(** The iteration inputs of the Map state [id] of the stack. *)
Definition Map_inputs (a : App) (id : string) (input context : ASL.JSON)
    : option (list ASL.JSON) :=
  match prop_of a id "items_path" with
  | Some (VJsonPath items_path) =>
      ASL.map_inputs items_path (prop_of a id "parameters") input context
  | _ => None
  end.

(** ** The URL encoding of the queue link *)

Module UrlEncoding.

(** The string with every character [d] replaced by [r]. *)
Fixpoint replace_char (d : ascii) (r : string) (s : string) : string :=
  match s with
  | EmptyString => ""
  | String c s' =>
      (if Ascii.eqb c d then r else String c "") +:+ replace_char d r s'
  end.

(** The encoding as the specification words it: every [:] replaced by
    [%3A] and every [/] replaced by [%2F]. *)
Fixpoint replace_colon_slash (s : string) : string :=
  match s with
  | EmptyString => ""
  | String c s' =>
      (if Ascii.eqb c ":" then "%3A"
       else if Ascii.eqb c "/" then "%2F"
       else String c "") +:+ replace_colon_slash s'
  end.

(** Decoding the two escapes, reading from the left: [%3A] stands for
    [:] and [%2F] for [/]; every other character stands for itself. *)
Fixpoint decode_escapes (s : string) : string :=
  match s with
  | EmptyString => ""
  | String c r =>
      match r with
      | String c1 (String c2 r') =>
          if Ascii.eqb c "%" && Ascii.eqb c1 "3" && Ascii.eqb c2 "A"
          then String ":" (decode_escapes r')
          else if Ascii.eqb c "%" && Ascii.eqb c1 "2" && Ascii.eqb c2 "F"
          then String "/" (decode_escapes r')
          else String c (decode_escapes r)
      | _ => String c (decode_escapes r)
      end
  end.

(** Whether the text of one of the two escapes occurs in the string. *)
Definition has_escape (s : string) : bool :=
  Str.contains "%3A" s || Str.contains "%2F" s.

End UrlEncoding.

(** ** The stack as built *)

(** The construct tree of the stack; [synth_built] below shows that the
    constructor does not raise, so that this is its result. *)
Definition built (ctx : SynthCtx) : App :=
  match OpenSearchWorkflow.synth ctx with
  | Ok a => a
  | Raise _ => empty_app
  end.

(** ** Predicates and examples the properties are stated with *)

(** A retry policy on Lambda throttling with a ceiling of at least 10000
    attempts. *)
Definition throttling_retry (r : RetryProps) : Prop :=
  "Lambda.TooManyRequestsException" ∈ errors r ∧ 10000 ≤ max_attempts r.

(** A state carries a retry policy on Lambda throttling with a ceiling of
    at least 10000 attempts, among the policies it has. *)
Definition carries_throttling_retry (rs : option (list RetryProps)) : Prop :=
  match rs with
  | Some l => Exists throttling_retry l
  | None => False
  end.

#[global] Instance carries_throttling_retry_dec rs : Decision (carries_throttling_retry rs).
Proof. destruct rs as [l|]; simpl; unfold throttling_retry; apply _. Defined.

(** A state's retry policies amount to that one policy and no other: its
    whole recovery behaviour is the retry on throttling. *)
Definition retries_on_throttling (rs : option (list RetryProps)) : Prop :=
  match rs with
  | Some [r] => throttling_retry r
  | _ => False
  end.

#[global] Instance retries_on_throttling_dec rs : Decision (retries_on_throttling rs).
Proof. destruct rs as [[|r [|? ?]]|]; simpl; unfold throttling_retry; apply _. Defined.

(** The characters a Cognito domain prefix may consist of. *)
Definition domain_char (c : ascii) : bool :=
  Str.is_lower c || Str.is_digit c || Ascii.eqb c "-".

(** The iteration input the payload contract names for the page [v]:
    the page's location under the splitter's output, and the two fields
    taken over from the Map state's input. *)
Definition page_input (bucket path : string) (mime uri : ASL.JSON) (v : string) : ASL.JSON :=
  ASL.JObj
    [("manifest",
        ASL.JObj [("s3Path",
                   ASL.JStr ("s3://" +:+ bucket +:+ "/" +:+ path +:+ "/" +:+ v))]);
     ("mime", mime);
     ("originFileURI", uri)].

(** The characters of a queue URL,
    [https://sqs.<region>.amazonaws.com/<account>/<queue name>]: letters,
    digits, and the punctuation of the host, the path and the queue name. *)
Definition queue_url_char (c : ascii) : bool :=
  Str.is_lower c || Str.is_upper c || Str.is_digit c
  || Ascii.eqb c ":" || Ascii.eqb c "/" || Ascii.eqb c "."
  || Ascii.eqb c "-" || Ascii.eqb c "_".

(** A deployment in which the queue URL is that of an SQS queue. *)
Definition example_env : Env :=
  {| attr_value := fun construct attr =>
       if String.eqb attr "document_queue.queue_url"
       then "https://sqs.eu-west-1.amazonaws.com/123456789012/ExecutionThrottle-DocumentQueue"
       else construct +:+ "." +:+ attr;
     stack_value := fun attr => if String.eqb attr "region" then "eu-west-1" else "123456789012";
     pseudo_value := fun name => name |}.

Definition example_ctx : SynthCtx :=
  {| stack_name := "OpenSearchWorkflow"; script_location := "/app/textract_cdk_stack_samples";
     document_queue := true |}.

Definition example_ctx_without_queue : SynthCtx :=
  {| stack_name := "OpenSearchWorkflow"; script_location := "/app/textract_cdk_stack_samples";
     document_queue := false |}.

(** The output of a splitter run on a three-page upload. *)
Definition example_input : ASL.JSON :=
  ASL.JObj [("pages", ASL.JArr [ASL.JStr "1.pdf"; ASL.JStr "2.pdf"; ASL.JStr "3.pdf"]);
        ("documentSplitterS3OutputBucket", ASL.JStr "documents");
        ("documentSplitterS3OutputPath", ASL.JStr "textract-output/2024/report");
        ("mime", ASL.JStr "application/pdf");
        ("originFileURI", ASL.JStr "s3://documents/uploads/report.pdf")].

(** ** Further readings of the construct tree *)

(** The literal prefixes among the storage arguments: where in the bucket
    the constructs of the workflow write. *)
Definition output_prefixes (a : App) : list string :=
  omap (fun p => match p with
                 | (_, name, VStr (Lit prefix)) =>
                     if Str.contains "prefix" name then Some prefix else None
                 | _ => None
                 end)
       (storage_params a).

(** The states reached from the start of a state machine's definition or
    from the start of a Map state's iterator, in the order met. *)
Definition reachable_states (a : App) : list string :=
  flat_map (fun m => match definition_of a m with
                     | Some c => path_from a (start_state c)
                     | None => []
                     end)
           (ids_of_class sfn_StateMachine a)
  ++ flat_map (path_from a) (snd <$> map_to_list (iterators a)).

(** The constructs created with
    [integration_pattern=sfn.IntegrationPattern.WAIT_FOR_TASK_TOKEN]. *)
Definition token_steps (a : App) : list string :=
  cid <$> List.filter
            (fun c => match kwarg "integration_pattern" (props c) with
                      | Some (VConst k) =>
                          String.eqb k "sfn.IntegrationPattern.WAIT_FOR_TASK_TOKEN"
                      | _ => false
                      end)
            (constructs a).

(** The constructs that are given an [input]. *)
Definition steps_with_input (a : App) : list string :=
  cid <$> List.filter
            (fun c => match kwarg "input" (props c) with
                      | Some _ => true
                      | None => false
                      end)
            (constructs a).

(** The payload that [input=sfn.TaskInput.from_object({...})] of the step
    [id] stands for, given the state input and the context object. *)
Definition task_input (a : App) (id : string) (input context : ASL.JSON)
    : option ASL.JSON :=
  match prop_of a id "input" with
  | Some (VCall fn [obj] []) =>
      if String.eqb fn "sfn.TaskInput.from_object"
      then ASL.eval_params input context obj
      else None
  | _ => None
  end.

(** The steps that are given a [result_path], with it. *)
Definition result_paths (a : App) : list (string * string) :=
  omap (fun c => match kwarg "result_path" (props c) with
                 | Some (VStr (Lit rp)) => Some (cid c, rp)
                 | _ => None
                 end)
       (constructs a).

(** [ResultPath] for a path of one step: the result becomes that field of
    the state input, in place of an earlier value or as a new field; [$]
    alone makes the result the whole output. *)
Fixpoint set_field (k : string) (v : ASL.JSON) (fields : list (string * ASL.JSON))
    : list (string * ASL.JSON) :=
  match fields with
  | [] => [(k, v)]
  | (k', v') :: rest =>
      if String.eqb k' k then (k, v) :: rest else (k', v') :: set_field k v rest
  end.

Definition apply_result_path (rp : string) (input result : ASL.JSON) : option ASL.JSON :=
  match ASL.parse_path rp with
  | Some {| ASL.root := ASL.Input; ASL.steps := [] |} => Some result
  | Some {| ASL.root := ASL.Input; ASL.steps := [k] |} =>
      match input with
      | ASL.JObj fields => Some (ASL.JObj (set_field k result fields))
      | _ => None
      end
  | _ => None
  end.

(** The Lambda-invoke steps with the function each invokes. *)
Definition invoked_functions (a : App) : list (string * string) :=
  omap (fun c => if Class_eqb (cls c) tasks_LambdaInvoke then
                   match kwarg "lambda_function" (props c) with
                   | Some (VRef f) => Some (cid c, f)
                   | _ => None
                   end
                 else None)
       (constructs a).

(** The directory a Docker image function is built from:
    [code=lambda_.DockerImageCode.from_image_asset(directory)]. *)
Definition code_directory (a : App) (id : string) : option string :=
  match prop_of a id "code" with
  | Some (VCall fn [VStr (Lit directory)] []) =>
      if String.eqb fn "lambda_.DockerImageCode.from_image_asset"
      then Some directory
      else None
  | _ => None
  end.

(** The outputs that carry an [export_name], with the name once the stack
    is deployed. *)
Definition exports (env : Env) (a : App) : list (string * string) :=
  omap (fun c => if Class_eqb (cls c) CfnOutput then
                   match kwarg "export_name" (props c) with
                   | Some (VStr e) => Some (cid c, resolve env e)
                   | _ => None
                   end
                 else None)
       (constructs a).

(** The URL encoding of the source, lines 286 to 297, on any token. *)
Definition queue_url_urlencoded (source : SExpr) : SExpr :=
  FnJoin "%2F" (FnSplit "/" (FnJoin "%3A" (FnSplit ":" source))).

(** A character the encoding is meant to remove. *)
Definition is_colon_or_slash (c : ascii) : bool :=
  Ascii.eqb c ":" || Ascii.eqb c "/".

(** How many characters of a string satisfy [p]. *)
Fixpoint count_chars (p : ascii -> bool) (s : string) : nat :=
  match s with
  | EmptyString => O
  | String c s' => ((if p c then 1 else 0) + count_chars p s')%nat
  end.

(** The f-string of the queue link around the encoded URL. *)
Definition queue_link (encoded : SExpr) : SExpr :=
  Lit "https://" ⊕ OpenSearchWorkflow.current_region
  ⊕ Lit ".console.aws.amazon.com/sqs/v2/home?region=" ⊕ OpenSearchWorkflow.current_region
  ⊕ Lit "#/queues/" ⊕ encoded.

(** ** Access policies *)

Module IAM.

(** Whether an action pattern of a policy statement covers an action:
    [*] stands for any run of characters and [?] for any one. *)
Fixpoint glob (pattern : string) : string -> bool :=
  match pattern with
  | EmptyString => fun s => match s with EmptyString => true | _ => false end
  | String c pattern' =>
      if Ascii.eqb c "*" then
        fix star (s : string) : bool :=
          glob pattern' s
          || match s with
             | EmptyString => false
             | String _ s' => star s'
             end
      else
        fun s => match s with
                 | EmptyString => false
                 | String d s' =>
                     (Ascii.eqb c "?" || Ascii.eqb c d) && glob pattern' s'
                 end
  end.

(** Action names are compared without regard to the case of letters. *)
Definition fold_case (s : string) : string := Str.map Str.lower_char s.

Definition action_matches (pattern action : string) : bool :=
  glob (fold_case pattern) (fold_case action).

End IAM.

(** The literal action patterns of [iam.PolicyStatement(actions=[...])]. *)
Definition statement_actions (statement : Value) : list string :=
  match statement with
  | VCall _ _ kw =>
      match kwarg "actions" kw with
      | Some (VList l) =>
          omap (fun v => match v with VStr (Lit s) => Some s | _ => None end) l
      | _ => []
      end
  | _ => []
  end.

(** The resources of [iam.PolicyStatement(resources=[...])], deployed. *)
Definition statement_resources (env : Env) (statement : Value) : list string :=
  match statement with
  | VCall _ _ kw =>
      match kwarg "resources" kw with
      | Some (VList l) =>
          omap (fun v => match v with VStr e => Some (resolve env e) | _ => None end) l
      | _ => []
      end
  | _ => []
  end.

(** Whether a statement added with [add_to_role_policy] lets the function
    [fn] perform [action]. *)
Definition granted (a : App) (fn action : string) : bool :=
  existsb (fun p => String.eqb (fst p) fn
                    && existsb (fun pattern => IAM.action_matches pattern action)
                               (statement_actions (snd p)))
          (role_policies a).

(** A context object as the workflow service hands it to a task. *)
Definition example_context : ASL.JSON :=
  ASL.JObj
    [("Execution",
        ASL.JObj [("Id", ASL.JStr "arn:aws:states:eu-west-1:123456789012:execution:OpenSearchWorkflow:run-1")]);
     ("Task", ASL.JObj [("Token", ASL.JStr "AAAAKgAAAAIAAAAA")])].

(** A state input without pages, and one with a page and no [mime]. *)
Definition example_input_without_pages : ASL.JSON :=
  ASL.JObj [("mime", ASL.JStr "application/pdf");
            ("originFileURI", ASL.JStr "s3://documents/uploads/report.pdf")].

Definition example_input_without_mime : ASL.JSON :=
  ASL.JObj [("pages", ASL.JArr [ASL.JStr "1.pdf"]);
            ("documentSplitterS3OutputBucket", ASL.JStr "documents");
            ("documentSplitterS3OutputPath", ASL.JStr "textract-output/2024/report");
            ("originFileURI", ASL.JStr "s3://documents/uploads/report.pdf")].

(** What a result path of one field does to an object: the result is
    found under the field, every other field is as it was. *)
Definition adds_field (rp name : string) : Prop :=
  rp = "$." +:+ name ∧
  ∀ fields result,
    ∃ out, apply_result_path rp (ASL.JObj fields) result = Some out ∧
      ASL.field name out = Some result ∧
      ∀ k, k ≠ name → ASL.field k out = ASL.field k (ASL.JObj fields).

(** * Properties *)

Import OpenSearchWorkflow.

(** ** The constructor runs to completion *)

Lemma synth_is_ok (ctx : SynthCtx) : is_ok (synth ctx) = true.
Proof. vm_compute. reflexivity. Qed.

Lemma synth_built (ctx : SynthCtx) : synth ctx = Ok (built ctx).
Proof.
  unfold built. pose proof (synth_is_ok ctx) as Hok.
  destruct (synth ctx); [reflexivity | discriminate Hok].
Qed.

(** Goals about the built stack are settled by evaluation: a decidable
    goal without unknowns by evaluating its decision procedure, any other
    by conversion. Conjunctions are taken apart first. *)
Ltac split_all := repeat match goal with |- _ ∧ _ => split end.
Ltac settle :=
  first [ apply (bool_decide_unpack _); vm_compute; exact I
        | intros; reflexivity ].
Ltac on_built ctx := exists (built ctx); split; [apply synth_built|]; split_all.

(** ** String facts *)

Lemma append_cons (c : ascii) (s t : string) : String c s +:+ t = String c (s +:+ t).
Proof. reflexivity. Qed.

Lemma append_nil_l (s : string) : "" +:+ s = s.
Proof. reflexivity. Qed.

Lemma append_nil_r (s : string) : s +:+ "" = s.
Proof.
  induction s as [|c s IH]; [reflexivity|].
  rewrite append_cons, IH. reflexivity.
Qed.

Lemma append_assoc (a b c : string) : (a +:+ b) +:+ c = a +:+ b +:+ c.
Proof.
  induction a as [|x a IH]; [reflexivity|].
  rewrite !append_cons, IH. reflexivity.
Qed.

(** ** The workflow chain *)

(** C1. The state machine is defined by the chain that starts at the
    decider; the decider is followed by the splitter and the splitter by
    the Map state; the Map state iterates the chain async extraction, JSON
    merge, metadata tagging, bulk generation, push, search-indexing map
    step. The transition map and the iterator map are given whole, so no
    other transition exists.

    Variables of the source and the ids of their constructs:
    [decider_task] is "OpenSearchWorkflow-Decider", [document_splitter_task]
    "DocumentSplitter", [map] "Map State", [textract_async_task]
    "TextractAsync", [textract_async_to_json] "TextractAsyncToJSON2",
    [set_meta_data_task] "SetMetaData", [generate_open_search_batch]
    "GenerateOpenSearchBatch", [task_lambda_opensearch_push]
    "OpenSearchPushInvoke", [task_opensearch_mapping]
    "TaskOpenSearchMapping". *)
Theorem workflow_chain_order (ctx : SynthCtx) :
  ∃ app, synth ctx = Ok app ∧
    ids_of_class sfn_StateMachine app = ["OpenSearchWorkflow"] ∧
    definition_of app "OpenSearchWorkflow"
      = Some {| start_state := "OpenSearchWorkflow-Decider";
                end_states := ["Map State"] |} ∧
    transitions app = list_to_map
      [("OpenSearchWorkflow-Decider", "DocumentSplitter");
       ("DocumentSplitter", "Map State");
       ("TextractAsync", "TextractAsyncToJSON2");
       ("TextractAsyncToJSON2", "SetMetaData");
       ("SetMetaData", "GenerateOpenSearchBatch");
       ("GenerateOpenSearchBatch", "OpenSearchPushInvoke");
       ("OpenSearchPushInvoke", "TaskOpenSearchMapping")] ∧
    iterators app = {[ "Map State" := "TextractAsync" ]} ∧
    path_from app "OpenSearchWorkflow-Decider"
      = ["OpenSearchWorkflow-Decider"; "DocumentSplitter"; "Map State"] ∧
    path_from app "TextractAsync"
      = ["TextractAsync"; "TextractAsyncToJSON2"; "SetMetaData";
         "GenerateOpenSearchBatch"; "OpenSearchPushInvoke"; "TaskOpenSearchMapping"].
Proof. on_built ctx; settle. Qed.

(** ** Retry policies *)



(** ** Throttling *)

(** C4. The throttle construct, the only one of its class, receives the
    concurrency threshold 550, the batch size 10 and the ARN of the state
    machine, which is the only state machine and is defined by the workflow
    chain (from the decider to the Map state); over all arguments of all
    constructs, at any depth, these two are the only ones that set a degree
    of concurrency or a batch size. *)
Theorem throttle_configuration (ctx : SynthCtx) :
  ∃ app, synth ctx = Ok app ∧
    ids_of_class tcdk_SFExecutionsStartThrottle app = ["ExecutionThrottle"] ∧
    prop_of app "ExecutionThrottle" "executions_concurrency_threshold" = Some (VInt 550) ∧
    prop_of app "ExecutionThrottle" "sqs_batch" = Some (VInt 10) ∧
    prop_of app "ExecutionThrottle" "state_machine_arn"
      = Some (VStr (Attr "OpenSearchWorkflow" "state_machine_arn")) ∧
    ids_of_class sfn_StateMachine app = ["OpenSearchWorkflow"] ∧
    definition_of app "OpenSearchWorkflow"
      = Some {| start_state := "OpenSearchWorkflow-Decider";
                end_states := ["Map State"] |} ∧
    concurrency_params app
      = [("ExecutionThrottle", "executions_concurrency_threshold");
         ("ExecutionThrottle", "sqs_batch")].
Proof.
  on_built ctx; settle.
Qed.

(** ** Stack outputs *)

Section Outputs.

Variable env : Env.

Let bucket_name := attr_value env "OpenSearchWorkflowBucket" "bucket_name".
Let region := stack_value env "region".
Let arn := attr_value env "OpenSearchWorkflow" "state_machine_arn".
Let queue_url := attr_value env "ExecutionThrottle" "document_queue.queue_url".
Let domain_endpoint :=
  attr_value env "OpenSearchResources" "open_search_domain.attr_domain_endpoint".
Let domain_name := attr_value env "OpenSearchResources" "open_search_domain.domain_name".
Let user_pool_id := attr_value env "OpenSearchResources" "user_pool.user_pool_id".

(** C5. The stack declares six outputs and no other, in this order: the
    upload location (an s3 URL), the console link of the state machine,
    the console link of the queue, the URL of the search dashboard, the
    console link of the search domain, and the console link of the user
    pool. *)
Theorem stack_outputs (ctx : SynthCtx) :
  ∃ app, synth ctx = Ok app ∧
    outputs app
      = ["DocumentUploadLocation"; "StepFunctionFlowLink"; "DocumentQueueLink";
         "OpenSearchDashboard"; "OpenSearchLink"; "CognitoUserPoolLink"] ∧
    output_value env app "DocumentUploadLocation"
      = Some ("s3://" +:+ bucket_name +:+ "/uploads/") ∧
    output_value env app "StepFunctionFlowLink"
      = Some ("https://" +:+ region +:+ ".console.aws.amazon.com/states/home?region="
              +:+ region +:+ "#/statemachines/view/" +:+ arn) ∧
    (∃ queue, output_value env app "DocumentQueueLink"
      = Some ("https://" +:+ region +:+ ".console.aws.amazon.com/sqs/v2/home?region="
              +:+ region +:+ "#/queues/" +:+ queue)) ∧
    output_value env app "OpenSearchDashboard"
      = Some ("https://" +:+ domain_endpoint +:+ "/_dashboards") ∧
    output_value env app "OpenSearchLink"
      = Some ("https://" +:+ region +:+ ".console.aws.amazon.com/aos/home?region="
              +:+ region +:+ "#/opensearch/domains/" +:+ domain_name) ∧
    output_value env app "CognitoUserPoolLink"
      = Some ("https://" +:+ region
              +:+ ".console.aws.amazon.com/cognito/v2/idp/user-pools/"
              +:+ user_pool_id +:+ "/users?region=" +:+ region).
Proof.
  destruct ctx as [name location queue].
  on_built ({| stack_name := name; script_location := location;
               document_queue := queue |});
    try settle.
  destruct queue; eexists; reflexivity.
Qed.

(** C6. Whatever name the document bucket gets, the upload-location
    output is [s3://] followed by that name and [/uploads/]. *)
Theorem upload_location_output (ctx : SynthCtx) :
  ∃ app, synth ctx = Ok app ∧
    output_value env app "DocumentUploadLocation"
      = Some ("s3://" +:+ bucket_name +:+ "/uploads/") ∧
    "/uploads/" = "/" +:+ s3_upload_prefix +:+ "/".
Proof. on_built ctx; settle. Qed.

End Outputs.

(** ** What starts an execution *)

Lemma prefix_iff (p s : string) :
  String.prefix p s = true ↔ ∃ rest, s = p +:+ rest.
Proof.
  revert s. induction p as [|a p IH]; intros s.
  - split; [intros _; exists s; reflexivity | intros _; destruct s; reflexivity].
  - destruct s as [|b s]; simpl.
    + split; [discriminate | intros [rest H]; discriminate H].
    + destruct (ascii_dec a b) as [->|Hne].
      * rewrite IH. split; intros [rest H]; exists rest.
        -- rewrite append_cons. f_equal. exact H.
        -- rewrite append_cons in H. injection H as H. exact H.
      * split; [discriminate|]. intros [rest H].
        rewrite append_cons in H. injection H as Hb _. congruence.
Qed.

Lemma starts_with_uploads (key : string) :
  Str.starts_with s3_upload_prefix key = true ↔ ∃ rest, key = "uploads" +:+ rest.
Proof. apply prefix_iff. Qed.

Section Trigger.

Variable env : Env.

(** C7. The state machine is handed to one construct only, the throttle,
    which gets its ARN; the throttle's event sources are one S3 event
    source, the only event source of the file; that source passes an event
    on exactly when it is an object-created event of the document bucket
    whose key starts with [uploads], the prefix of the upload-location
    output. *)
Theorem executions_start_from_uploads (ctx : SynthCtx) :
  ∃ app src, synth ctx = Ok app ∧
    users_of "OpenSearchWorkflow" app = ["ExecutionThrottle"] ∧
    prop_of app "ExecutionThrottle" "state_machine_arn"
      = Some (VStr (Attr "OpenSearchWorkflow" "state_machine_arn")) ∧
    prop_of app "ExecutionThrottle" "event_source" = Some (VList [VEventSource src]) ∧
    event_sources app = [("ExecutionThrottle", src)] ∧
    ids_of_class s3_Bucket app = [source_bucket src] ∧
    (∀ ev, S3.fires src ev = true ↔
             S3.ev_bucket ev = "OpenSearchWorkflowBucket"
             ∧ S3.is_object_created (S3.ev_action ev) = true
             ∧ ∃ rest, S3.ev_key ev = "uploads" +:+ rest) ∧
    output_value env app "DocumentUploadLocation"
      = Some ("s3://" +:+ attr_value env "OpenSearchWorkflowBucket" "bucket_name"
              +:+ "/" +:+ "uploads" +:+ "/").
Proof.
  exists (built ctx),
    {| source_bucket := "OpenSearchWorkflowBucket";
       events := [OBJECT_CREATED];
       filters := [ {| key_prefix := Some s3_upload_prefix; key_suffix := None |} ] |}.
  split; [apply synth_built|]. split_all; try settle.
  intros [bucket action key]. unfold S3.fires, S3.accepts.
  cbn [S3.ev_bucket S3.ev_action S3.ev_key source_bucket events filters
       key_prefix key_suffix existsb forallb].
  rewrite <- starts_with_uploads.
  rewrite !andb_true_r, orb_false_r, !andb_true_iff, String.eqb_eq.
  split.
  - intros [[<- Hact] Hkey]. split; [reflexivity|]. split; [|exact Hkey].
    destruct action; simpl in *; congruence.
  - intros (<- & Hact & Hkey). split; [split; [reflexivity|] | exact Hkey].
    destruct action; simpl in *; congruence.
Qed.

End Trigger.

(** ** The document bucket *)

(** C10. Every argument of the file that names a bucket names the one
    bucket the stack creates, whose prefixes are the upload prefix of the
    event source and the three output prefixes; that bucket is created
    with [auto_delete_objects=True] and [RemovalPolicy.DESTROY]; so when
    the stack is deleted the bucket goes, whatever objects it holds. *)
Theorem document_bucket_goes_with_stack (ctx : SynthCtx) :
  ∃ app, synth ctx = Ok app ∧
    ids_of_class s3_Bucket app = ["OpenSearchWorkflowBucket"] ∧
    prop_of app "OpenSearchWorkflowBucket" "auto_delete_objects" = Some (VBool true) ∧
    prop_of app "OpenSearchWorkflowBucket" "removal_policy"
      = Some (VRemovalPolicy DESTROY) ∧
    storage_params app
      = [("DocumentSplitter", "s3_output_bucket",
            VStr (Attr "OpenSearchWorkflowBucket" "bucket_name"));
         ("DocumentSplitter", "s3_output_prefix", VStr (Lit "textract-output"));
         ("TextractAsync", "s3_output_bucket",
            VStr (Attr "OpenSearchWorkflowBucket" "bucket_name"));
         ("TextractAsync", "s3_temp_output_prefix", VStr (Lit "textract-temp"));
         ("TextractAsyncToJSON2", "s3_output_prefix", VStr (Lit "textract-output"));
         ("TextractAsyncToJSON2", "s3_output_bucket",
            VStr (Attr "OpenSearchWorkflowBucket" "bucket_name"));
         ("GenerateOpenSearchBatch", "csv_s3_output_bucket",
            VStr (Attr "OpenSearchWorkflowBucket" "bucket_name"));
         ("GenerateOpenSearchBatch", "csv_s3_output_prefix",
            VStr (Lit "textract-opensearch-output"))] ∧
    event_sources app
      = [("ExecutionThrottle",
          {| source_bucket := "OpenSearchWorkflowBucket";
             events := [OBJECT_CREATED];
             filters := [ {| key_prefix := Some "uploads"; key_suffix := None |} ] |})] ∧
    (∀ objects, bucket_fate app "OpenSearchWorkflowBucket" objects = Some S3.Deleted).
Proof.
  on_built ctx; settle.
Qed.

(** ** The Cognito domain prefix *)

Lemma forallb_impl (p q : ascii → bool) (s : string) :
  (∀ c, p c = true → q c = true) → Str.forallb p s = true → Str.forallb q s = true.
Proof.
  intros Hpq. induction s as [|c s IH]; simpl; [reflexivity|].
  rewrite !andb_true_iff. intros [Hc Hs]. split; [apply Hpq, Hc | apply IH, Hs].
Qed.

Lemma forallb_take (p : ascii → bool) (n : nat) (s : string) :
  Str.forallb p s = true → Str.forallb p (Str.take n s) = true.
Proof.
  revert s. induction n as [|n IH]; intros [|c s]; simpl; try reflexivity.
  rewrite !andb_true_iff. intros [Hc Hs]. split; [exact Hc | apply IH, Hs].
Qed.

Lemma forallb_map (p : ascii → bool) (f : ascii → ascii) (s : string) :
  Str.forallb p (Str.map f s) = Str.forallb (fun c => p (f c)) s.
Proof. induction s as [|c s IH]; simpl; [reflexivity | now rewrite IH]. Qed.

Lemma length_take (n : nat) (s : string) : (String.length (Str.take n s) ≤ n)%nat.
Proof.
  revert s. induction n as [|n IH]; intros [|c s]; simpl; try lia.
  specialize (IH s). lia.
Qed.

(** What [re.sub] with an empty replacement leaves are the characters the
    pattern does not match. *)
Lemma sub_empty_keeps_unmatched (pattern : Re.Bracket) (s : string) :
  Str.forallb (fun c => negb (Re.matches pattern c)) (Re.sub pattern "" s) = true.
Proof.
  induction s as [|c s IH]; [reflexivity|].
  cbn [Re.sub]. destruct (Re.matches pattern c) eqn:Hc.
  - rewrite append_nil_l. exact IH.
  - rewrite append_cons, append_nil_l. cbn [Str.forallb].
    rewrite Hc, IH. reflexivity.
Qed.

(** A character outside the negated class is an ASCII letter, a digit or
    a hyphen, and lowering it gives a lower-case letter, a digit or a
    hyphen. *)
Lemma lower_unmatched_is_domain_char (c : ascii) :
  negb (Re.matches cognito_pattern c) = true → domain_char (Str.lower_char c) = true.
Proof.
  destruct c as [[] [] [] [] [] [] [] []]; vm_compute; intros H;
    first [reflexivity | discriminate H].
Qed.

(** C8. For every stack name, the prefix
    [re.sub("[^a-zA-Z0-9-]", "", stack_name).lower()[:30]] consists of
    lower-case letters, digits and hyphens only and is at most 30 long, and
    the [cognito_domain_name] handed to [LambdaToOpenSearch] is that prefix,
    a hyphen, the account id, a hyphen and the region. *)
Theorem cognito_domain_name_shape (ctx : SynthCtx) (env : Env) :
  cognito_stack_name (stack_name ctx)
    = Str.take 30 (Str.lower (Re.sub cognito_pattern "" (stack_name ctx))) ∧
  Str.forallb domain_char (cognito_stack_name (stack_name ctx)) = true ∧
  (String.length (cognito_stack_name (stack_name ctx)) ≤ 30)%nat ∧
  ∃ app name, synth ctx = Ok app ∧
    ids_of_class LambdaToOpenSearch app = ["OpenSearchResources"] ∧
    prop_of app "OpenSearchResources" "cognito_domain_name" = Some (VStr name) ∧
    resolve env name
      = cognito_stack_name (stack_name ctx) +:+ "-" +:+ stack_value env "account"
        +:+ "-" +:+ stack_value env "region".
Proof.
  split; [reflexivity|]. split; [|split].
  - unfold cognito_stack_name. apply forallb_take. unfold Str.lower.
    rewrite forallb_map.
    eapply forallb_impl; [|apply sub_empty_keeps_unmatched].
    apply lower_unmatched_is_domain_char.
  - apply length_take.
  - exists (built ctx),
      (Lit (cognito_stack_name (stack_name ctx)) ⊕ Lit "-" ⊕ account_id
       ⊕ Lit "-" ⊕ current_region).
    split; [apply synth_built|]. split_all; settle.
Qed.

(** ** The queue link *)

Import UrlEncoding.

Lemma split_from_not_nil (d : ascii) (cur s : string) : Str.split_from d cur s ≠ [].
Proof.
  revert cur. induction s as [|c s IH]; intros cur; cbn [Str.split_from].
  - discriminate.
  - destruct (Ascii.eqb c d); [discriminate | apply IH].
Qed.

Lemma join_cons (sep p : string) (rest : list string) :
  rest ≠ [] → Str.join sep (p :: rest) = p +:+ sep +:+ Str.join sep rest.
Proof. destruct rest; [congruence | reflexivity]. Qed.

(** Joining the pieces of a split with [r] puts [r] where the delimiter
    was. *)
Lemma join_split_from (d : ascii) (r cur s : string) :
  Str.join r (Str.split_from d cur s) = cur +:+ replace_char d r s.
Proof.
  revert cur. induction s as [|c s IH]; intros cur;
    cbn [Str.split_from replace_char].
  - cbn [Str.join]. rewrite append_nil_r. reflexivity.
  - destruct (Ascii.eqb c d).
    + rewrite join_cons by apply split_from_not_nil.
      rewrite IH, append_nil_l. reflexivity.
    + rewrite IH, append_assoc. reflexivity.
Qed.

Lemma join_split (d : ascii) (r s : string) :
  Str.join r (Str.split d s) = replace_char d r s.
Proof. unfold Str.split. rewrite join_split_from. apply append_nil_l. Qed.

Lemma replace_char_app (d : ascii) (r a b : string) :
  replace_char d r (a +:+ b) = replace_char d r a +:+ replace_char d r b.
Proof.
  induction a as [|c a IH]; [reflexivity|].
  rewrite append_cons. cbn [replace_char]. rewrite IH, append_assoc. reflexivity.
Qed.

(** Replacing the colons and then the slashes is replacing both at once:
    the text put in for a colon holds no slash. *)
Lemma replace_colon_then_slash (s : string) :
  replace_char "/" "%2F" (replace_char ":" "%3A" s) = replace_colon_slash s.
Proof.
  induction s as [|c s IH]; [reflexivity|].
  cbn [replace_char replace_colon_slash]. rewrite replace_char_app, IH.
  f_equal.
  destruct (Ascii.eqb_spec c ":") as [->|Hcolon]; [reflexivity|].
  cbn [replace_char]. rewrite append_nil_r.
  destruct (Ascii.eqb c "/"); reflexivity.
Qed.

(** What the two intrinsics compute on a string. *)
Lemma fn_join_split_encodes (s : string) :
  Str.join "%2F" (Str.split "/" (Str.join "%3A" (Str.split ":" s)))
  = replace_colon_slash s.
Proof. rewrite !join_split. apply replace_colon_then_slash. Qed.

(** *** Decoding *)

Lemma prefix_two (a b c1 c2 : ascii) (r : string) :
  String.prefix (String a (String b "")) (String c1 (String c2 r))
  = Ascii.eqb c1 a && Ascii.eqb c2 b.
Proof.
  cbn [String.prefix].
  destruct (ascii_dec a c1) as [->|Ha], (ascii_dec b c2) as [->|Hb];
    rewrite ?Ascii.eqb_refl; cbn [andb].
  - destruct r; reflexivity.
  - symmetry. apply Ascii.eqb_neq. congruence.
  - symmetry. apply andb_false_intro1, Ascii.eqb_neq. congruence.
  - symmetry. apply andb_false_intro1, Ascii.eqb_neq. congruence.
Qed.

Lemma decode_plain (c : ascii) (r : string) :
  c ≠ "%"%char → decode_escapes (String c r) = String c (decode_escapes r).
Proof.
  intros Hc. apply Ascii.eqb_neq in Hc.
  destruct r as [|c1 [|c2 r']]; cbn [decode_escapes]; try reflexivity.
  rewrite Hc. reflexivity.
Qed.

Lemma decode_percent (r : string) :
  String.prefix "3A" r = false → String.prefix "2F" r = false →
  decode_escapes (String "%" r) = String "%" (decode_escapes r).
Proof.
  destruct r as [|c1 [|c2 r']]; try reflexivity.
  rewrite !prefix_two. intros H3A H2F.
  cbn [decode_escapes]. rewrite Ascii.eqb_refl. cbn [andb].
  rewrite H3A, H2F. reflexivity.
Qed.

(** The encoding starts with the two plain characters [a], [b] exactly
    when the string does. *)
Lemma encode_prefix_one (a : ascii) (s : string) :
  a ≠ "%"%char → a ≠ ":"%char → a ≠ "/"%char →
  String.prefix (String a "") (replace_colon_slash s) = String.prefix (String a "") s.
Proof.
  intros Hp Hc Hs. destruct s as [|c s]; [reflexivity|].
  cbn [replace_colon_slash].
  destruct (Ascii.eqb_spec c ":") as [->|Hcolon];
    [|destruct (Ascii.eqb_spec c "/") as [->|Hslash]].
  - rewrite !append_cons, append_nil_l. cbn [String.prefix].
    destruct (ascii_dec a "%"), (ascii_dec a ":"); congruence.
  - rewrite !append_cons, append_nil_l. cbn [String.prefix].
    destruct (ascii_dec a "%"), (ascii_dec a "/"); congruence.
  - rewrite append_cons, append_nil_l. cbn [String.prefix].
    destruct (ascii_dec a c); [|reflexivity].
    destruct (replace_colon_slash s), s; reflexivity.
Qed.

Lemma encode_prefix_two (a b : ascii) (s : string) :
  a ≠ "%"%char → a ≠ ":"%char → a ≠ "/"%char →
  b ≠ "%"%char → b ≠ ":"%char → b ≠ "/"%char →
  String.prefix (String a (String b "")) (replace_colon_slash s)
  = String.prefix (String a (String b "")) s.
Proof.
  intros Hp Hc Hs Hp' Hc' Hs'. destruct s as [|c s]; [reflexivity|].
  cbn [replace_colon_slash].
  destruct (Ascii.eqb_spec c ":") as [->|Hcolon];
    [|destruct (Ascii.eqb_spec c "/") as [->|Hslash]].
  - rewrite !append_cons, append_nil_l. cbn [String.prefix].
    destruct (ascii_dec a "%"), (ascii_dec a ":"); congruence.
  - rewrite !append_cons, append_nil_l. cbn [String.prefix].
    destruct (ascii_dec a "%"), (ascii_dec a "/"); congruence.
  - rewrite append_cons, append_nil_l.
    change (String.prefix (String a (String b "")) (String c ?t))
      with (if ascii_dec a c then String.prefix (String b "") t else false).
    destruct (ascii_dec a c); [|reflexivity].
    apply encode_prefix_one; assumption.
Qed.

Lemma contains_cons_false (needle : string) (c : ascii) (s : string) :
  Str.contains needle (String c s) = false →
  String.prefix needle (String c s) = false ∧ Str.contains needle s = false.
Proof. cbn [Str.contains]. apply orb_false_elim. Qed.

(** Decoding undoes the encoding of a string in which the text of neither
    escape occurs. *)
Lemma decode_encode (s : string) :
  has_escape s = false → decode_escapes (replace_colon_slash s) = s.
Proof.
  unfold has_escape. induction s as [|c s IH]; [reflexivity|].
  intros H. apply orb_false_elim in H as [H3A H2F].
  apply contains_cons_false in H3A as [P3A C3A].
  apply contains_cons_false in H2F as [P2F C2F].
  specialize (IH ltac:(rewrite C3A, C2F; reflexivity)).
  cbn [replace_colon_slash].
  destruct (Ascii.eqb_spec c ":") as [->|Hcolon];
    [|destruct (Ascii.eqb_spec c "/") as [->|Hslash]].
  - change (decode_escapes ("%3A" +:+ replace_colon_slash s))
      with (String ":" (decode_escapes (replace_colon_slash s))).
    rewrite IH. reflexivity.
  - change (decode_escapes ("%2F" +:+ replace_colon_slash s))
      with (String "/" (decode_escapes (replace_colon_slash s))).
    rewrite IH. reflexivity.
  - rewrite append_cons, append_nil_l.
    destruct (Ascii.eqb_spec c "%") as [->|Hpercent].
    + rewrite decode_percent, IH; [reflexivity | |].
      * rewrite encode_prefix_two by discriminate. exact P3A.
      * rewrite encode_prefix_two by discriminate. exact P2F.
    + rewrite decode_plain, IH by assumption. reflexivity.
Qed.

Lemma prefix_percent_false (rest : string) (c : ascii) (s : string) :
  c ≠ "%"%char → String.prefix (String "%" rest) (String c s) = false.
Proof.
  intros Hc. cbn [String.prefix].
  destruct (ascii_dec "%" c) as [<-|_]; [congruence | reflexivity].
Qed.

(** A string without a percent sign holds the text of no escape. *)
Lemma no_percent_no_escape (s : string) :
  Str.forallb (fun c => negb (Ascii.eqb c "%")) s = true → has_escape s = false.
Proof.
  unfold has_escape. induction s as [|c s IH]; [reflexivity|].
  cbn [Str.forallb]. rewrite andb_true_iff, negb_true_iff, Ascii.eqb_neq.
  intros [Hc Hs]. specialize (IH Hs). apply orb_false_elim in IH as [H3A H2F].
  cbn [Str.contains]. rewrite !prefix_percent_false, H3A, H2F by exact Hc.
  reflexivity.
Qed.

Lemma queue_url_char_not_percent (c : ascii) :
  queue_url_char c = true → negb (Ascii.eqb c "%") = true.
Proof.
  destruct (Ascii.eqb_spec c "%") as [->|_]; [|reflexivity].
  vm_compute. intros H. discriminate H.
Qed.

(** A queue URL holds the text of no escape. *)
Lemma queue_url_no_escape (s : string) :
  Str.forallb queue_url_char s = true → has_escape s = false.
Proof.
  intros H. apply no_percent_no_escape.
  revert H. apply forallb_impl, queue_url_char_not_percent.
Qed.

(** The proviso on decoding is needed: the text of an escape that stands
    in the string itself is left alone by the encoding and decoded all the
    same. *)
Example decode_of_literal_escape :
  replace_colon_slash "%3A" = "%3A" ∧ decode_escapes "%3A" = ":".
Proof. split; reflexivity. Qed.

Section QueueLink.

Variable env : Env.

Let region := stack_value env "region".
Let queue_url := attr_value env "ExecutionThrottle" "document_queue.queue_url".

(** C9. The queue link ends in the encoded queue URL. When the throttle
    exposes a document queue, the encoded URL is the queue URL with every
    [:] replaced by [%3A] and every [/] by [%2F]; decoding the two escapes
    gives the queue URL back whenever the text of neither escape occurs in
    the URL itself, which is so for every string over the characters of a
    queue URL. When there is no document queue, the encoded URL is empty
    and the link ends in [#/queues/]. *)
Theorem queue_link_encoding (ctx : SynthCtx) :
  ∃ app encoded, synth ctx = Ok app ∧
    output_value env app "DocumentQueueLink"
      = Some ("https://" +:+ region +:+ ".console.aws.amazon.com/sqs/v2/home?region="
              +:+ region +:+ "#/queues/" +:+ encoded) ∧
    encoded = (if document_queue ctx then replace_colon_slash queue_url else "") ∧
    (document_queue ctx = false →
       output_value env app "DocumentQueueLink"
         = Some ("https://" +:+ region
                 +:+ ".console.aws.amazon.com/sqs/v2/home?region="
                 +:+ region +:+ "#/queues/")) ∧
    (has_escape queue_url = false →
       decode_escapes (replace_colon_slash queue_url) = queue_url) ∧
    (Str.forallb queue_url_char queue_url = true → has_escape queue_url = false).
Proof.
  destruct ctx as [name location [|]].
  - exists (built {| stack_name := name; script_location := location;
                     document_queue := true |}),
           (resolve env
              (FnJoin "%2F"
                 (FnSplit "/"
                    (FnJoin "%3A"
                       (FnSplit ":" (Attr "ExecutionThrottle" "document_queue.queue_url")))))).
    split; [apply synth_built|]. split; [reflexivity|]. split.
    + cbn [resolve resolve_list document_queue]. apply fn_join_split_encodes.
    + split; [discriminate|]. split; [apply decode_encode | apply queue_url_no_escape].
  - exists (built {| stack_name := name; script_location := location;
                     document_queue := false |}), "".
    split; [apply synth_built|]. split; [reflexivity|]. split; [reflexivity|].
    split; [intros _; reflexivity|].
    split; [apply decode_encode | apply queue_url_no_escape].
Qed.

End QueueLink.

Lemma queue_link_encoding_witness :
  (Str.forallb queue_url_char
     "https://sqs.eu-west-1.amazonaws.com/123456789012/ExecutionThrottle-DocumentQueue"
   = true
   ∧ has_escape
       "https://sqs.eu-west-1.amazonaws.com/123456789012/ExecutionThrottle-DocumentQueue"
     = false
   ∧ decode_escapes
       "https%3A%2F%2Fsqs.eu-west-1.amazonaws.com%2F123456789012%2FExecutionThrottle-DocumentQueue"
     = "https://sqs.eu-west-1.amazonaws.com/123456789012/ExecutionThrottle-DocumentQueue")
  ∧ (document_queue example_ctx_without_queue = false
     ∧ ∃ app, synth example_ctx_without_queue = Ok app
         ∧ output_value example_env app "DocumentQueueLink"
           = Some "https://eu-west-1.console.aws.amazon.com/sqs/v2/home?region=eu-west-1#/queues/").
Proof.
  split.
  - destruct (queue_link_encoding example_env example_ctx)
      as (app & encoded & _ & _ & _ & _ & Hdecode & Hurl).
    split; [reflexivity|]. split; [apply Hurl; reflexivity|].
    apply Hdecode, Hurl. reflexivity.
  - destruct (queue_link_encoding example_env example_ctx_without_queue)
      as (app & encoded & Happ & _ & _ & Hlink & _).
    split; [reflexivity|]. exists app. split; [exact Happ|].
    apply Hlink. reflexivity.
Defined.

(** ** The payload of the Map state *)

Import ASL.

Lemma eval_expr_of_path (input context : JSON) (e : string) (p : Path) :
  Str.starts_with "States." e = false → parse_path e = Some p →
  eval_expr input context e = eval_path input context p.
Proof. unfold eval_expr. intros -> ->. reflexivity. Qed.

Lemma eval_expr_of_format (input context : JSON) (e : string) (f : FormatCall) :
  Str.starts_with "States." e = true → parse_format e = Some f →
  eval_expr input context e = eval_format input context f.
Proof. unfold eval_expr. intros -> ->. reflexivity. Qed.

(** The intrinsic call of the source, read: the template [s3://{}/{}/{}]
    and its three arguments. *)
Lemma s3Path_format :
  parse_format s3Path_expr
  = Some {| template := [Text "s"; Text "3"; Text ":"; Text "/"; Text "/";
                         Hole; Text "/"; Hole; Text "/"; Hole];
            arguments :=
              [ {| root := Input; steps := ["documentSplitterS3OutputBucket"] |};
                {| root := Input; steps := ["documentSplitterS3OutputPath"] |};
                {| root := Context; steps := ["Map"; "Item"; "Value"] |} ] |}.
Proof. vm_compute. reflexivity. Qed.

Lemma map_state_items_path (ctx : SynthCtx) :
  prop_of (built ctx) "Map State" "items_path" = Some (VJsonPath "$.pages").
Proof. reflexivity. Qed.

Lemma map_state_parameters (ctx : SynthCtx) :
  prop_of (built ctx) "Map State" "parameters"
  = Some (VDict [("manifest", VDict [("s3Path", VJsonPath s3Path_expr)]);
                 ("mime", VJsonPath "$.mime");
                 ("originFileURI", VJsonPath "$.originFileURI")]).
Proof. reflexivity. Qed.

Section MapState.

Variables (input : JSON) (bucket path : string) (mime uri : JSON).

Hypothesis Hbucket : field "documentSplitterS3OutputBucket" input = Some (JStr bucket).
Hypothesis Hpath : field "documentSplitterS3OutputPath" input = Some (JStr path).
Hypothesis Hmime : field "mime" input = Some mime.
Hypothesis Huri : field "originFileURI" input = Some uri.

Lemma parameters_of_page (index : nat) (v : string) :
  eval_params input (item_context index (JStr v))
    (VDict [("manifest", VDict [("s3Path", VJsonPath s3Path_expr)]);
            ("mime", VJsonPath "$.mime");
            ("originFileURI", VJsonPath "$.originFileURI")])
  = Some (page_input bucket path mime uri v).
Proof.
  cbn [eval_params mapM].
  rewrite (eval_expr_of_format _ _ s3Path_expr _ eq_refl s3Path_format).
  rewrite (eval_expr_of_path _ _ "$.mime"
             {| root := Input; steps := ["mime"] |} eq_refl eq_refl).
  rewrite (eval_expr_of_path _ _ "$.originFileURI"
             {| root := Input; steps := ["originFileURI"] |} eq_refl eq_refl).
  unfold eval_format, eval_path. cbn [arguments template root steps descend mapM].
  rewrite Hbucket, Hpath, Hmime, Huri. cbn.
  rewrite append_nil_r. reflexivity.
Qed.

Lemma iteration_inputs_of_pages (index : nat) (pages : list string) :
  iteration_inputs
    (Some (VDict [("manifest", VDict [("s3Path", VJsonPath s3Path_expr)]);
                  ("mime", VJsonPath "$.mime");
                  ("originFileURI", VJsonPath "$.originFileURI")]))
    input index (JStr <$> pages)
  = Some (page_input bucket path mime uri <$> pages).
Proof.
  revert index. induction pages as [|v pages IH]; intros index; [reflexivity|].
  rewrite !fmap_cons. cbn [iteration_inputs].
  rewrite parameters_of_page, IH. reflexivity.
Qed.

End MapState.

(** C2. The Map state iterates over the array at [$.pages], and for every
    page [v] of it, in order, the iteration gets the object whose
    [manifest.s3Path] is [s3://], the splitter's output bucket, [/], the
    splitter's output path, [/] and [v], and whose [mime] and
    [originFileURI] are those of the Map state's input. The Map state is
    the only one of the stack. *)
Theorem map_state_payload_contract (ctx : SynthCtx) (input context : JSON)
    (bucket path : string) (mime uri : JSON) (pages : list string) :
  field "pages" input = Some (JArr (JStr <$> pages)) →
  field "documentSplitterS3OutputBucket" input = Some (JStr bucket) →
  field "documentSplitterS3OutputPath" input = Some (JStr path) →
  field "mime" input = Some mime →
  field "originFileURI" input = Some uri →
  ∃ app, synth ctx = Ok app ∧
    ids_of_class sfn_Map app = ["Map State"] ∧
    prop_of app "Map State" "items_path" = Some (VJsonPath "$.pages") ∧
    eval_expr input context "$.pages" = Some (JArr (JStr <$> pages)) ∧
    Map_inputs app "Map State" input context
      = Some ((fun v =>
                 JObj [("manifest",
                          JObj [("s3Path",
                                 JStr ("s3://" +:+ bucket +:+ "/" +:+ path +:+ "/" +:+ v))]);
                       ("mime", mime);
                       ("originFileURI", uri)]) <$> pages).
Proof.
  intros Hpages Hbucket Hpath Hmime Huri.
  assert (Hitems : eval_expr input context "$.pages" = Some (JArr (JStr <$> pages))).
  { rewrite (eval_expr_of_path _ _ "$.pages"
               {| root := Input; steps := ["pages"] |} eq_refl eq_refl).
    unfold eval_path. cbn [root steps descend]. rewrite Hpages. reflexivity. }
  on_built ctx; try settle; [exact Hitems|].
  unfold Map_inputs. rewrite map_state_items_path, map_state_parameters.
  unfold map_inputs. rewrite Hitems.
  apply iteration_inputs_of_pages; assumption.
Qed.

Lemma map_state_payload_contract_witness :
  ∃ app, synth example_ctx = Ok app ∧
    ids_of_class sfn_Map app = ["Map State"] ∧
    prop_of app "Map State" "items_path" = Some (VJsonPath "$.pages") ∧
    eval_expr example_input JNull "$.pages"
      = Some (JArr [JStr "1.pdf"; JStr "2.pdf"; JStr "3.pdf"]) ∧
    Map_inputs app "Map State" example_input JNull
      = Some [JObj [("manifest",
                       JObj [("s3Path", JStr "s3://documents/textract-output/2024/report/1.pdf")]);
                    ("mime", JStr "application/pdf");
                    ("originFileURI", JStr "s3://documents/uploads/report.pdf")];
              JObj [("manifest",
                       JObj [("s3Path", JStr "s3://documents/textract-output/2024/report/2.pdf")]);
                    ("mime", JStr "application/pdf");
                    ("originFileURI", JStr "s3://documents/uploads/report.pdf")];
              JObj [("manifest",
                       JObj [("s3Path", JStr "s3://documents/textract-output/2024/report/3.pdf")]);
                    ("mime", JStr "application/pdf");
                    ("originFileURI", JStr "s3://documents/uploads/report.pdf")]].
Proof.
  apply (map_state_payload_contract example_ctx example_input JNull
           "documents" "textract-output/2024/report"
           (JStr "application/pdf") (JStr "s3://documents/uploads/report.pdf")
           ["1.pdf"; "2.pdf"; "3.pdf"]); reflexivity.
Defined.

(** * Further properties *)

(** ** The workflow's own output starts no execution *)

(** X1. The prefixes the constructs of the workflow write under are the
    three output prefixes, and no object whose key starts with one of them
    is passed on by the event source, whatever happens to it and however
    the key goes on: what the workflow writes into the document bucket
    starts no further execution. *)
Theorem outputs_start_no_execution (ctx : SynthCtx) :
  ∃ app src, synth ctx = Ok app ∧
    event_sources app = [("ExecutionThrottle", src)] ∧
    output_prefixes app
      = [s3_output_prefix; s3_temp_output_prefix; s3_output_prefix;
         s3_opensearch_output_prefix] ∧
    Forall (fun prefix => ∀ bucket action rest,
              S3.fires src {| S3.ev_bucket := bucket; S3.ev_action := action;
                              S3.ev_key := prefix +:+ rest |} = false)
           (output_prefixes app).
Proof.
  exists (built ctx),
    {| source_bucket := "OpenSearchWorkflowBucket";
       events := [OBJECT_CREATED];
       filters := [ {| key_prefix := Some s3_upload_prefix; key_suffix := None |} ] |}.
  split; [apply synth_built|]. split; [reflexivity|].
  assert (Hprefixes : output_prefixes (built ctx)
                      = [s3_output_prefix; s3_temp_output_prefix; s3_output_prefix;
                         s3_opensearch_output_prefix]) by reflexivity.
  split; [exact Hprefixes|]. rewrite Hprefixes.
  repeat constructor; intros bucket action rest; unfold S3.fires, S3.accepts;
    cbn [S3.ev_bucket S3.ev_action S3.ev_key source_bucket events filters
         key_prefix key_suffix existsb forallb];
    match goal with
    | |- context [Str.starts_with ?p ?k] =>
        change (Str.starts_with p k) with false
    end;
    rewrite !andb_false_r; reflexivity.
Qed.

(** ** The shape of the workflow *)

(** X4. Every state the constructor creates is reached from the start of
    the state machine or of the Map iterator, and reached once: nothing is
    left outside the workflow, the two chains share no state, and neither
    runs in a circle, each ending in a state without successor. No state is
    the successor of two states. *)
Theorem every_state_reached_once (ctx : SynthCtx) :
  ∃ app, synth ctx = Ok app ∧
    NoDup (reachable_states app) ∧
    list_to_set (reachable_states app) = dom (states app) ∧
    length (reachable_states app) = size (states app) ∧
    NoDup (snd <$> map_to_list (transitions app)) ∧
    Forall (fun s => transitions app !! s = None)
           (omap (fun m => match definition_of app m with
                           | Some c => last (path_from app (start_state c))
                           | None => None
                           end)
                 (ids_of_class sfn_StateMachine app)
            ++ omap (fun s => last (path_from app s))
                    (snd <$> map_to_list (iterators app))).
Proof. on_built ctx; settle. Qed.

(** ** Functions *)

(** X12. Each Docker image function is invoked by exactly one
    Lambda-invoke step and each such step invokes a function of the stack;
    the function the push step invokes is the one that is handed to the
    search-domain construct and the only one a role policy is added to. *)
Theorem functions_and_their_steps (ctx : SynthCtx) :
  ∃ app, synth ctx = Ok app ∧
    fst <$> invoked_functions app = ids_of_class tasks_LambdaInvoke app ∧
    snd <$> invoked_functions app ≡ₚ ids_of_class lambda_DockerImageFunction app ∧
    NoDup (snd <$> invoked_functions app) ∧
    (∃ push, invoked_functions app !! 0%nat = Some ("OpenSearchPushInvoke", push) ∧
       prop_of app "OpenSearchResources" "existing_lambda_obj" = Some (VRef push) ∧
       fst <$> role_policies app = [push]).
Proof.
  on_built ctx; try settle.
  exists "LambdaOpenSearchPush". split_all; reflexivity.
Qed.

Lemma append_left_inj (a b c : string) : a +:+ b = a +:+ c → b = c.
Proof.
  induction a as [|x a IH]; [trivial|].
  rewrite !append_cons. intros H. injection H as H. apply IH, H.
Qed.

(** Different relative directories joined onto one directory stay
    different. *)
Lemma joined_directories_differ (base r1 r2 r3 : string) :
  r1 ≠ r2 → r1 ≠ r3 → r2 ≠ r3 →
  NoDup [Some (base +:+ r1); Some (base +:+ r2); Some (base +:+ r3)].
Proof.
  intros H12 H13 H23.
  assert (Hneq : ∀ a b : string, a ≠ b → Some (base +:+ a) ≠ Some (base +:+ b)).
  { intros a b Hab E. injection E as E. apply append_left_inj in E. exact (Hab E). }
  apply NoDup_cons. split.
  - intros Hin. apply elem_of_cons in Hin as [E|Hin]; [exact (Hneq _ _ H12 E)|].
    apply elem_of_cons in Hin as [E|Hin]; [exact (Hneq _ _ H13 E)|].
    inversion Hin.
  - apply NoDup_cons. split.
    + intros Hin. apply elem_of_cons in Hin as [E|Hin]; [exact (Hneq _ _ H23 E)|].
      inversion Hin.
    + apply NoDup_singleton.
Qed.

(** X9. Wherever the source file lies, the three functions are built
    from three different directories, each the relative directory the
    source names joined onto the file's directory: [os.path.join] keeps the
    first component, since no second component is absolute, and puts a
    slash between the two unless the first is empty or ends in one. *)
Theorem code_directories (ctx : SynthCtx) :
  ∃ app separator, synth ctx = Ok app ∧
    separator = (if String.eqb (script_location ctx) ""
                    || Str.ends_with_char "/" (script_location ctx)
                 then "" else "/") ∧
    (code_directory app <$> ids_of_class lambda_DockerImageFunction app)
      = [Some (script_location ctx +:+ separator +:+ "../lambda/opensearch_push/");
         Some (script_location ctx +:+ separator +:+ "../lambda/map_opensearch_lambda/");
         Some (script_location ctx +:+ separator
               +:+ "../lambda/set-manifest-meta-data-opensearch")] ∧
    NoDup (code_directory app <$> ids_of_class lambda_DockerImageFunction app).
Proof.
  exists (built ctx), (if String.eqb (script_location ctx) ""
                          || Str.ends_with_char "/" (script_location ctx)
                       then "" else "/").
  split; [apply synth_built|]. split; [reflexivity|].
  assert (Hdirs :
    (code_directory (built ctx) <$> ids_of_class lambda_DockerImageFunction (built ctx))
    = [Some (os_path_join (script_location ctx) "../lambda/opensearch_push/");
       Some (os_path_join (script_location ctx) "../lambda/map_opensearch_lambda/");
       Some (os_path_join (script_location ctx)
                          "../lambda/set-manifest-meta-data-opensearch")])
    by reflexivity.
  rewrite Hdirs. unfold os_path_join.
  change (Str.starts_with "/" "../lambda/opensearch_push/") with false.
  change (Str.starts_with "/" "../lambda/map_opensearch_lambda/") with false.
  change (Str.starts_with "/" "../lambda/set-manifest-meta-data-opensearch") with false.
  cbv iota.
  destruct (String.eqb (script_location ctx) ""
            || Str.ends_with_char "/" (script_location ctx)).
  - split; [reflexivity|].
    rewrite <- (append_nil_l "../lambda/opensearch_push/") at 1.
    rewrite <- (append_nil_l "../lambda/map_opensearch_lambda/") at 1.
    rewrite <- (append_nil_l "../lambda/set-manifest-meta-data-opensearch") at 1.
    rewrite <- !append_assoc.
    apply joined_directories_differ; discriminate.
  - split; [reflexivity|].
    rewrite <- !append_assoc.
    apply joined_directories_differ; discriminate.
Qed.

(** ** Exports *)

(** X10. Of the outputs only the upload location is exported, under the
    name of the deployed stack followed by [-DocumentUploadLocation]. *)
Theorem exported_outputs (ctx : SynthCtx) (env : Env) :
  ∃ app, synth ctx = Ok app ∧
    exports env app
      = [("DocumentUploadLocation",
          pseudo_value env "AWS::StackName" +:+ "-DocumentUploadLocation")].
Proof. on_built ctx; settle. Qed.

(** ** The role policy of the push function *)

Lemma glob_star (s : string) : IAM.glob "*" s = true.
Proof.
  induction s as [|c s IH]; [reflexivity|].
  change (IAM.glob "*" (String c s)) with (IAM.glob "" (String c s) || IAM.glob "*" s).
  rewrite IH. apply orb_true_r.
Qed.

(** A pattern that is plain text followed by [*] covers the strings that
    start with the text. *)
Lemma glob_text_star (text s : string) :
  Str.forallb (fun c => negb (Ascii.eqb c "*") && negb (Ascii.eqb c "?")) text = true →
  IAM.glob (text +:+ "*") s = String.prefix text s.
Proof.
  revert s. induction text as [|c text IH]; intros s Hplain.
  - rewrite append_nil_l, glob_star. destruct s; reflexivity.
  - cbn [Str.forallb] in Hplain.
    apply andb_true_iff in Hplain as [Hc Hplain].
    apply andb_true_iff in Hc as [Hstar Hany].
    apply negb_true_iff in Hstar, Hany.
    rewrite append_cons. cbn [IAM.glob]. rewrite Hstar.
    destruct s as [|d s]; [reflexivity|].
    rewrite Hany, IH by exact Hplain. cbn [orb String.prefix].
    destruct (ascii_dec c d) as [->|Hcd].
    + rewrite Ascii.eqb_refl. reflexivity.
    + apply Ascii.eqb_neq in Hcd. rewrite Hcd. reflexivity.
Qed.

Section RolePolicy.

Variable env : Env.

Let bucket_arn := attr_value env "OpenSearchWorkflowBucket" "bucket_arn".

(** X2. The one statement the constructor adds to a function's role is
    for the push function, names the document bucket and the objects in it
    as resources, and covers exactly the actions whose names start with
    [s3:Get] or [s3:List], letter case apart: it lets the function read and
    list the bucket and nothing else, so no action that writes or deletes. *)
Theorem push_function_reads_only (ctx : SynthCtx) :
  ∃ app statement, synth ctx = Ok app ∧
    role_policies app = [("LambdaOpenSearchPush", statement)] ∧
    statement_resources env statement = [bucket_arn; bucket_arn +:+ "/*"] ∧
    (∀ fn action,
       granted app fn action = true ↔
         fn = "LambdaOpenSearchPush"
         ∧ (String.prefix "s3:get" (IAM.fold_case action) = true
            ∨ String.prefix "s3:list" (IAM.fold_case action) = true)) ∧
    granted app "LambdaOpenSearchPush" "s3:GetObject" = true ∧
    granted app "LambdaOpenSearchPush" "s3:ListBucket" = true ∧
    granted app "LambdaOpenSearchPush" "s3:PutObject" = false ∧
    granted app "LambdaOpenSearchPush" "s3:DeleteObject" = false.
Proof.
  exists (built ctx),
    (VCall "iam.PolicyStatement" []
       [("actions", VList [VStr (Lit "s3:Get*"); VStr (Lit "s3:List*")]);
        ("resources",
           VList [VStr (Attr "OpenSearchWorkflowBucket" "bucket_arn");
                  VStr (Attr "OpenSearchWorkflowBucket" "bucket_arn" ⊕ Lit "/*")])]).
  split; [apply synth_built|]. split_all; try settle.
  intros fn action.
  assert (Hgranted : granted (built ctx) fn action
            = String.eqb "LambdaOpenSearchPush" fn
              && (IAM.action_matches "s3:Get*" action
                  || (IAM.action_matches "s3:List*" action || false)) || false)
    by reflexivity.
  rewrite Hgranted. unfold IAM.action_matches.
  change (IAM.fold_case "s3:Get*") with ("s3:get" +:+ "*").
  change (IAM.fold_case "s3:List*") with ("s3:list" +:+ "*").
  rewrite !glob_text_star by reflexivity.
  rewrite !orb_false_r, andb_true_iff, orb_true_iff, String.eqb_eq.
  split; intros [Hfn Hact]; (split; [congruence | exact Hact]).
Qed.

End RolePolicy.

(** ** The input of the callback steps *)

(** X3. The steps that wait for a task token are the async extraction
    and the bulk generation, and they are the steps that are given an
    input; whatever the state input, each hands its function the task
    token and the execution id of the context object and, as [Payload],
    the state input unchanged. *)
Theorem callback_steps_pass_the_token (ctx : SynthCtx)
    (input context token execution : JSON) :
  descend ["Task"; "Token"] context = Some token →
  descend ["Execution"; "Id"] context = Some execution →
  ∃ app, synth ctx = Ok app ∧
    token_steps app = ["TextractAsync"; "GenerateOpenSearchBatch"] ∧
    steps_with_input app = token_steps app ∧
    Forall (fun id => task_input app id input context
                      = Some (JObj [("Token", token);
                                    ("ExecutionId", execution);
                                    ("Payload", input)]))
           (token_steps app).
Proof.
  intros Htoken Hexecution.
  assert (Hpayload :
    eval_params input context
      (VDict [("Token", VJsonPath "$$.Task.Token");
              ("ExecutionId", VJsonPath "$$.Execution.Id");
              ("Payload", VJsonPath "$")])
    = Some (JObj [("Token", token); ("ExecutionId", execution); ("Payload", input)])).
  { cbn [eval_params mapM].
    rewrite (eval_expr_of_path _ _ "$$.Task.Token"
               {| root := Context; steps := ["Task"; "Token"] |} eq_refl eq_refl).
    rewrite (eval_expr_of_path _ _ "$$.Execution.Id"
               {| root := Context; steps := ["Execution"; "Id"] |} eq_refl eq_refl).
    rewrite (eval_expr_of_path _ _ "$"
               {| root := Input; steps := [] |} eq_refl eq_refl).
    unfold eval_path. cbn [root steps]. rewrite Htoken, Hexecution. reflexivity. }
  on_built ctx; try settle.
  assert (Hsteps : token_steps (built ctx) = ["TextractAsync"; "GenerateOpenSearchBatch"])
    by reflexivity.
  rewrite Hsteps. repeat constructor; exact Hpayload.
Qed.

Lemma callback_steps_pass_the_token_witness :
  ∃ app, synth example_ctx = Ok app ∧
    token_steps app = ["TextractAsync"; "GenerateOpenSearchBatch"] ∧
    steps_with_input app = token_steps app ∧
    Forall (fun id => task_input app id example_input example_context
                      = Some (JObj [("Token", JStr "AAAAKgAAAAIAAAAA");
                                    ("ExecutionId",
                                       JStr "arn:aws:states:eu-west-1:123456789012:execution:OpenSearchWorkflow:run-1");
                                    ("Payload", example_input)]))
           (token_steps app).
Proof.
  apply (callback_steps_pass_the_token example_ctx example_input example_context
           (JStr "AAAAKgAAAAIAAAAA")
           (JStr "arn:aws:states:eu-west-1:123456789012:execution:OpenSearchWorkflow:run-1"));
    reflexivity.
Defined.

(** ** Result paths *)

Lemma assoc_set_field_same (k : string) (v : JSON) (fields : list (string * JSON)) :
  assoc k (set_field k v fields) = Some v.
Proof.
  induction fields as [|[k' v'] fields IH]; cbn [set_field assoc].
  - rewrite String.eqb_refl. reflexivity.
  - destruct (String.eqb k' k) eqn:E; cbn [assoc].
    + rewrite String.eqb_refl. reflexivity.
    + rewrite E. exact IH.
Qed.

Lemma assoc_set_field_other (k k0 : string) (v : JSON) (fields : list (string * JSON)) :
  k0 ≠ k → assoc k0 (set_field k v fields) = assoc k0 fields.
Proof.
  intros Hne. induction fields as [|[k' v'] fields IH]; cbn [set_field assoc].
  - apply not_eq_sym, String.eqb_neq in Hne. rewrite Hne. reflexivity.
  - destruct (String.eqb k' k) eqn:E; cbn [assoc].
    + apply String.eqb_eq in E. subst k'.
      apply not_eq_sym, String.eqb_neq in Hne. rewrite Hne. reflexivity.
    + rewrite IH. reflexivity.
Qed.

Lemma result_path_adds_field (rp name : string) :
  rp = "$." +:+ name →
  parse_path rp = Some {| root := Input; steps := [name] |} →
  adds_field rp name.
Proof.
  intros Hrp Hparse. split; [exact Hrp|]. intros fields result.
  exists (JObj (set_field name result fields)).
  unfold apply_result_path. rewrite Hparse. cbn [field].
  split; [reflexivity|]. split; [apply assoc_set_field_same|].
  intros k Hk. apply assoc_set_field_other, Hk.
Qed.

(** X11. Three steps are given a result path, each a field of its own
    that is none of the fields the Map state builds ([manifest], [mime],
    [originFileURI]): on an object as state input, the step's result is
    stored under that field and every other field of the input, those three
    and the results of the earlier steps among them, passes through
    unchanged. *)
Theorem results_are_added_beside_the_input (ctx : SynthCtx) :
  ∃ app, synth ctx = Ok app ∧
    fst <$> result_paths app
      = ["TextractAsync"; "GenerateOpenSearchBatch"; "OpenSearchPushInvoke"] ∧
    Forall2 adds_field (snd <$> result_paths app)
      ["textract_result"; "opensearch_output_location"; "OpenSearchPush"] ∧
    NoDup (snd <$> result_paths app) ∧
    Forall (fun name => name ∉ ["manifest"; "mime"; "originFileURI"])
      ["textract_result"; "opensearch_output_location"; "OpenSearchPush"].
Proof.
  on_built ctx; try settle.
  assert (Hpaths : snd <$> result_paths (built ctx)
            = ["$.textract_result"; "$.opensearch_output_location"; "$.OpenSearchPush"])
    by reflexivity.
  rewrite Hpaths.
  repeat constructor; apply result_path_adds_field; reflexivity.
Qed.

(** ** The Cognito prefix, further *)

Lemma forallb_app (p : ascii → bool) (a b : string) :
  Str.forallb p (a +:+ b) = Str.forallb p a && Str.forallb p b.
Proof.
  induction a as [|c a IH]; [reflexivity|].
  rewrite append_cons. cbn [Str.forallb]. rewrite IH. apply andb_assoc.
Qed.

Lemma length_app (a b : string) :
  String.length (a +:+ b) = (String.length a + String.length b)%nat.
Proof.
  induction a as [|c a IH]; [reflexivity|].
  rewrite append_cons. cbn [String.length]. rewrite IH. reflexivity.
Qed.

Lemma length_map (f : ascii → ascii) (s : string) :
  String.length (Str.map f s) = String.length s.
Proof. induction s as [|c s IH]; [reflexivity|]. cbn. rewrite IH. reflexivity. Qed.

Lemma map_app (f : ascii → ascii) (a b : string) :
  Str.map f (a +:+ b) = Str.map f a +:+ Str.map f b.
Proof.
  induction a as [|c a IH]; [reflexivity|].
  rewrite append_cons. cbn [Str.map]. rewrite IH, append_cons. reflexivity.
Qed.

Lemma sub_app (pattern : Re.Bracket) (repl a b : string) :
  Re.sub pattern repl (a +:+ b) = Re.sub pattern repl a +:+ Re.sub pattern repl b.
Proof.
  induction a as [|c a IH]; [reflexivity|].
  rewrite append_cons. cbn [Re.sub]. rewrite IH, append_assoc. reflexivity.
Qed.

Lemma take_all (n : nat) (s : string) :
  (String.length s ≤ n)%nat → Str.take n s = s.
Proof.
  revert s. induction n as [|n IH]; intros [|c s]; cbn; try reflexivity; try lia.
  intros H. rewrite IH by lia. reflexivity.
Qed.

Lemma take_app (n : nat) (a b : string) :
  (n ≤ String.length a)%nat → Str.take n (a +:+ b) = Str.take n a.
Proof.
  revert a. induction n as [|n IH]; intros [|c a]; cbn [String.length]; try lia.
  - intros _. destruct b; reflexivity.
  - reflexivity.
  - intros H. rewrite append_cons. cbn [Str.take]. rewrite IH by lia. reflexivity.
Qed.

Lemma map_fixed (f : ascii → ascii) (s : string) :
  Str.forallb (fun c => Ascii.eqb (f c) c) s = true → Str.map f s = s.
Proof.
  induction s as [|c s IH]; [reflexivity|]. cbn [Str.forallb Str.map].
  rewrite andb_true_iff, Ascii.eqb_eq. intros [-> Hs]. rewrite IH by exact Hs.
  reflexivity.
Qed.

Lemma sub_fixed (pattern : Re.Bracket) (repl s : string) :
  Str.forallb (fun c => negb (Re.matches pattern c)) s = true →
  Re.sub pattern repl s = s.
Proof.
  induction s as [|c s IH]; [reflexivity|]. cbn [Str.forallb Re.sub].
  rewrite andb_true_iff, negb_true_iff. intros [-> Hs].
  rewrite IH, append_cons, append_nil_l by exact Hs. reflexivity.
Qed.

(** A lower-case letter, a digit or a hyphen is outside the pattern and
    is its own lower case. *)
Lemma domain_char_is_kept (c : ascii) :
  domain_char c = true →
  negb (Re.matches cognito_pattern c) = true ∧ Ascii.eqb (Str.lower_char c) c = true.
Proof.
  destruct c as [[] [] [] [] [] [] [] []]; vm_compute; intros H;
    first [split; reflexivity | discriminate H].
Qed.

Lemma cognito_stack_name_chars (s : string) :
  Str.forallb domain_char (cognito_stack_name s) = true.
Proof.
  unfold cognito_stack_name. apply forallb_take. unfold Str.lower.
  rewrite forallb_map.
  eapply forallb_impl; [|apply sub_empty_keeps_unmatched].
  apply lower_unmatched_is_domain_char.
Qed.

Lemma cognito_stack_name_fixed (s : string) :
  Str.forallb domain_char s = true → (String.length s ≤ 30)%nat →
  cognito_stack_name s = s.
Proof.
  intros Hchars Hlength. unfold cognito_stack_name, Str.lower.
  rewrite sub_fixed, map_fixed, take_all; try reflexivity; try exact Hlength.
  - revert Hchars. apply forallb_impl. intros c Hc.
    apply (proj2 (domain_char_is_kept c Hc)).
  - revert Hchars. apply forallb_impl. intros c Hc.
    apply (proj1 (domain_char_is_kept c Hc)).
Qed.

(** X5. A stack name that already consists of lower-case letters, digits
    and hyphens and is at most 30 long is its own prefix; so the prefix of
    any stack name is its own prefix: computing it a second time changes
    nothing. *)
Theorem cognito_stack_name_idempotent (s : string) :
  (Str.forallb domain_char s = true → (String.length s ≤ 30)%nat →
   cognito_stack_name s = s)
  ∧ cognito_stack_name (cognito_stack_name s) = cognito_stack_name s.
Proof.
  split; [apply cognito_stack_name_fixed|].
  apply cognito_stack_name_fixed;
    [apply cognito_stack_name_chars | apply length_take].
Qed.

Lemma cognito_stack_name_idempotent_witness :
  Str.forallb domain_char "opensearch-workflow-2" = true
  ∧ (String.length "opensearch-workflow-2" ≤ 30)%nat
  ∧ cognito_stack_name "opensearch-workflow-2" = "opensearch-workflow-2".
Proof.
  split; [reflexivity|]. split; [cbn; lia|].
  apply (proj1 (cognito_stack_name_idempotent "opensearch-workflow-2"));
    [reflexivity | cbn; lia].
Defined.

(** X6. Once a stack name holds 30 letters, digits and hyphens, whatever
    follows them does not reach the prefix: stack names that agree up to
    there get the same prefix. *)
Theorem cognito_stack_name_cut (s rest : string) :
  (30 ≤ String.length (Re.sub cognito_pattern "" s))%nat →
  cognito_stack_name (s +:+ rest) = cognito_stack_name s.
Proof.
  intros Hlong. unfold cognito_stack_name, Str.lower.
  rewrite sub_app, map_app. apply take_app. rewrite length_map. exact Hlong.
Qed.

Lemma cognito_stack_name_cut_witness :
  (30 ≤ String.length
          (Re.sub cognito_pattern "" "Document_Processing_OpenSearch_Workflow"))%nat
  ∧ cognito_stack_name ("Document_Processing_OpenSearch_Workflow" +:+ "-Staging")
    = cognito_stack_name "Document_Processing_OpenSearch_Workflow"
  ∧ cognito_stack_name "Document_Processing_OpenSearch_Workflow"
    = "documentprocessingopensearchwo".
Proof.
  split; [vm_compute; lia|]. split; [|reflexivity].
  apply cognito_stack_name_cut. vm_compute. lia.
Defined.

(** X13. The Cognito domain name is never longer than 32 characters plus
    the account id and the region, so with a 12-digit account id and a
    region of at most 19 characters it stays within 63 characters; and when
    the account id and the region consist of lower-case letters, digits and
    hyphens, so does the whole name. *)
Theorem cognito_domain_name_fits (ctx : SynthCtx) (env : Env) :
  ∃ app name, synth ctx = Ok app ∧
    prop_of app "OpenSearchResources" "cognito_domain_name" = Some (VStr name) ∧
    (String.length (resolve env name)
       ≤ 32 + String.length (stack_value env "account")
         + String.length (stack_value env "region"))%nat ∧
    (String.length (stack_value env "account") = 12%nat →
     (String.length (stack_value env "region") ≤ 19)%nat →
     (String.length (resolve env name) ≤ 63)%nat) ∧
    (Str.forallb domain_char (stack_value env "account") = true →
     Str.forallb domain_char (stack_value env "region") = true →
     Str.forallb domain_char (resolve env name) = true).
Proof.
  exists (built ctx),
    (Lit (cognito_stack_name (stack_name ctx)) ⊕ Lit "-" ⊕ account_id
     ⊕ Lit "-" ⊕ current_region).
  split; [apply synth_built|]. split; [reflexivity|].
  assert (Hresolved :
    resolve env (Lit (cognito_stack_name (stack_name ctx)) ⊕ Lit "-" ⊕ account_id
                 ⊕ Lit "-" ⊕ current_region)
    = cognito_stack_name (stack_name ctx) +:+ "-" +:+ stack_value env "account"
      +:+ "-" +:+ stack_value env "region") by reflexivity.
  rewrite Hresolved.
  assert (Hlength :
    (String.length (cognito_stack_name (stack_name ctx) +:+ "-"
                    +:+ stack_value env "account" +:+ "-" +:+ stack_value env "region")
     ≤ 32 + String.length (stack_value env "account")
       + String.length (stack_value env "region"))%nat).
  { rewrite !length_app. cbn [String.length].
    pose proof (length_take 30 (Str.lower (Re.sub cognito_pattern "" (stack_name ctx)))) as H.
    unfold cognito_stack_name. lia. }
  split; [exact Hlength|]. split.
  - intros Haccount Hregion. lia.
  - intros Haccount Hregion.
    rewrite !forallb_app, cognito_stack_name_chars, Haccount, Hregion. reflexivity.
Qed.

Lemma cognito_domain_name_fits_witness :
  (String.length (stack_value example_env "account") = 12%nat
   ∧ (String.length (stack_value example_env "region") ≤ 19)%nat
   ∧ Str.forallb domain_char (stack_value example_env "account") = true
   ∧ Str.forallb domain_char (stack_value example_env "region") = true)
  ∧ ∃ app name, synth example_ctx = Ok app ∧
      prop_of app "OpenSearchResources" "cognito_domain_name" = Some (VStr name) ∧
      (String.length (resolve example_env name) ≤ 63)%nat ∧
      Str.forallb domain_char (resolve example_env name) = true.
Proof.
  split; [split_all; first [reflexivity | cbn; lia]|].
  destruct (cognito_domain_name_fits example_ctx example_env)
    as (app & name & Happ & Hname & _ & Hfits & Hchars).
  exists app, name. split; [exact Happ|]. split; [exact Hname|].
  split; [apply Hfits; first [reflexivity | cbn; lia] | apply Hchars; reflexivity].
Defined.

(** ** The encoded queue URL, further *)

Lemma resolve_urlencoded (env : Env) (source : SExpr) :
  resolve env (queue_url_urlencoded source) = replace_colon_slash (resolve env source).
Proof.
  unfold queue_url_urlencoded. cbn [resolve resolve_list]. apply fn_join_split_encodes.
Qed.

Lemma replace_colon_slash_app (a b : string) :
  replace_colon_slash (a +:+ b) = replace_colon_slash a +:+ replace_colon_slash b.
Proof.
  induction a as [|c a IH]; [reflexivity|].
  rewrite append_cons. cbn [replace_colon_slash]. rewrite IH, append_assoc. reflexivity.
Qed.

Lemma replace_colon_slash_plain (s : string) :
  Str.forallb (fun c => negb (is_colon_or_slash c)) (replace_colon_slash s) = true.
Proof.
  induction s as [|c s IH]; [reflexivity|].
  cbn [replace_colon_slash]. rewrite forallb_app, IH, andb_true_r.
  unfold is_colon_or_slash.
  destruct (Ascii.eqb c ":") eqn:Hcolon; [reflexivity|].
  destruct (Ascii.eqb c "/") eqn:Hslash; [reflexivity|].
  cbn [Str.forallb]. rewrite Hcolon, Hslash. reflexivity.
Qed.

Lemma replace_colon_slash_length (s : string) :
  String.length (replace_colon_slash s)
  = (String.length s + 2 * count_chars is_colon_or_slash s)%nat.
Proof.
  induction s as [|c s IH]; [reflexivity|].
  cbn [replace_colon_slash count_chars String.length]. rewrite length_app, IH.
  unfold is_colon_or_slash.
  destruct (Ascii.eqb c ":"); [cbn; lia|].
  destruct (Ascii.eqb c "/"); cbn; lia.
Qed.

(** X7. What the queue link ends in is the source's encoding of the queue
    URL when there is a queue, and that encoding, of whatever string,
    holds no colon and no slash: the queue URL cannot be taken for part of
    the path of the console link. *)
Theorem encoded_url_has_no_colon_or_slash (ctx : SynthCtx) (env : Env) :
  ∃ app, synth ctx = Ok app ∧
    prop_of app "DocumentQueueLink" "value"
      = Some (VStr (queue_link
                      (if document_queue ctx
                       then queue_url_urlencoded
                              (Attr "ExecutionThrottle" "document_queue.queue_url")
                       else Lit ""))) ∧
    ∀ source,
      Str.forallb (fun c => negb (is_colon_or_slash c))
                  (resolve env (queue_url_urlencoded source)) = true.
Proof.
  on_built ctx.
  - destruct ctx as [name location [|]]; reflexivity.
  - intros source. rewrite resolve_urlencoded. apply replace_colon_slash_plain.
Qed.

(** X8. The encoding works character by character: the encoding of two
    strings put together is the two encodings put together, and it is
    longer than the string by two characters for every colon and slash. *)
Theorem encoding_is_characterwise (env : Env) (a b : SExpr) :
  resolve env (queue_url_urlencoded (a ⊕ b))
    = resolve env (queue_url_urlencoded a) +:+ resolve env (queue_url_urlencoded b)
  ∧ String.length (resolve env (queue_url_urlencoded a))
    = (String.length (resolve env a)
       + 2 * count_chars is_colon_or_slash (resolve env a))%nat.
Proof.
  rewrite !resolve_urlencoded. cbn [resolve].
  split; [apply replace_colon_slash_app | apply replace_colon_slash_length].
Qed.

(** ** The Map state without its fields *)

Lemma map_inputs_of_pages (ctx : SynthCtx) (input context : JSON) :
  Map_inputs (built ctx) "Map State" input context
  = match field "pages" input with
    | Some (JArr items) =>
        iteration_inputs
          (Some (VDict [("manifest", VDict [("s3Path", VJsonPath s3Path_expr)]);
                        ("mime", VJsonPath "$.mime");
                        ("originFileURI", VJsonPath "$.originFileURI")]))
          input 0 items
    | _ => None
    end.
Proof.
  unfold Map_inputs. rewrite map_state_items_path, map_state_parameters.
  unfold map_inputs.
  rewrite (eval_expr_of_path _ _ "$.pages"
             {| root := Input; steps := ["pages"] |} eq_refl eq_refl).
  unfold eval_path. cbn [root steps descend].
  destruct (field "pages" input) as [[]|]; reflexivity.
Qed.

(** The parameters of the Map state cannot be built when one of the four
    fields they refer to is missing from the state input. *)
Lemma parameters_need_fields (input context : JSON) :
  field "documentSplitterS3OutputBucket" input = None
  ∨ field "documentSplitterS3OutputPath" input = None
  ∨ field "mime" input = None
  ∨ field "originFileURI" input = None →
  eval_params input context
    (VDict [("manifest", VDict [("s3Path", VJsonPath s3Path_expr)]);
            ("mime", VJsonPath "$.mime");
            ("originFileURI", VJsonPath "$.originFileURI")])
  = None.
Proof.
  intros Hmissing. cbn [eval_params mapM].
  rewrite (eval_expr_of_format _ _ s3Path_expr _ eq_refl s3Path_format).
  rewrite (eval_expr_of_path _ _ "$.mime"
             {| root := Input; steps := ["mime"] |} eq_refl eq_refl).
  rewrite (eval_expr_of_path _ _ "$.originFileURI"
             {| root := Input; steps := ["originFileURI"] |} eq_refl eq_refl).
  unfold eval_format, eval_path.
  cbn [arguments template root steps mapM].
  generalize (descend ["Map"; "Item"; "Value"] context). intros item.
  cbn [descend].
  destruct Hmissing as [H|[H|[H|H]]]; rewrite H;
    repeat match goal with
           | |- context [field ?k input] => destruct (field k input) as [[]|]
           end;
    destruct item as [[]|]; reflexivity.
Qed.

(** X14. The Map state produces no iteration input, so that the execution
    fails there, when the state input has no array under [pages], and when
    it has pages but lacks the splitter's output bucket or output path,
    [mime] or [originFileURI]. *)
Theorem map_state_needs_its_fields (ctx : SynthCtx) (input context : JSON) :
  ∃ app, synth ctx = Ok app ∧
    ((∀ items, field "pages" input ≠ Some (JArr items)) →
     Map_inputs app "Map State" input context = None) ∧
    (∀ page pages,
       field "pages" input = Some (JArr (page :: pages)) →
       field "documentSplitterS3OutputBucket" input = None
       ∨ field "documentSplitterS3OutputPath" input = None
       ∨ field "mime" input = None
       ∨ field "originFileURI" input = None →
       Map_inputs app "Map State" input context = None).
Proof.
  on_built ctx.
  - intros Hpages. rewrite map_inputs_of_pages.
    destruct (field "pages" input) as [[]|]; try reflexivity.
    exfalso. eapply Hpages. reflexivity.
  - intros page pages Hpages Hmissing.
    rewrite map_inputs_of_pages, Hpages. cbn [iteration_inputs].
    rewrite parameters_need_fields by exact Hmissing. reflexivity.
Qed.

Lemma map_state_needs_its_fields_witness :
  (∃ app, synth example_ctx = Ok app ∧
     Map_inputs app "Map State" example_input_without_pages JNull = None)
  ∧ (∃ app, synth example_ctx = Ok app ∧
       Map_inputs app "Map State" example_input_without_mime JNull = None).
Proof.
  split.
  - destruct (map_state_needs_its_fields example_ctx example_input_without_pages JNull)
      as (app & Happ & Hpages & _).
    exists app. split; [exact Happ|]. apply Hpages. intros items. discriminate.
  - destruct (map_state_needs_its_fields example_ctx example_input_without_mime JNull)
      as (app & Happ & _ & Hfields).
    exists app. split; [exact Happ|].
    apply (Hfields (JStr "1.pdf") []); [reflexivity|].
    right. right. left. reflexivity.
Defined.
